(** * Blog SEO analyser: a shallow embedding of [blog_seo_analyser.py]

    The analyser reads one Markdown file, extracts its title, strips the
    Markdown syntax with a fixed sequence of regular-expression
    substitutions, scores title, content and structure, and prints a
    report.  This file embeds that program and settles the properties
    stated about it.

    Conventions of the embedding:
    - a Python [str] is a list of Unicode code points ([pystr]);
    - the regular expressions of the program are terms of a small pattern
      language ([atom]), run by a backtracking matcher that tries the
      alternatives in the order Python's [re] module does;
    - a Python [dict] is a finite map from its string keys to values, and
      [d[k]] raises [KeyError] when the key is missing;
    - exceptions and standard output are threaded through a small monad;
    - a document is the text that [f.read()] returns; the interpreter is
      CPython 3.7 or later (a [Counter] keeps the order of first
      occurrence and [most_common] is stable), the path module POSIX;
    - floats are IEEE binary64 values ([spec_float]), so that the mean and
      the density are rounded as the interpreter rounds them. *)

From Stdlib Require Import ZArith NArith List Bool Lia.
From Stdlib Require Import Floats.SpecFloat.
From Stdlib Require DecimalString.
From stdpp Require Import gmap strings list fin_maps sorting.

#[local] Set Warnings "-register-all".
#[local] Open Scope N_scope.

(** ** Strings *)

(** A Python string: the sequence of its code points. *)
Definition pystr : Type := list N.

(** The code points of a string literal of the source (ASCII only). *)
Definition u (s : string) : pystr :=
  map Ascii.N_of_ascii (String.list_ascii_of_string s).

Definition NL : N := 10.

(** [str.isspace] on one code point, which is also the class [\s] of an
    [re] pattern over [str]. *)
Definition is_space (c : N) : bool :=
  ((9 <=? c) && (c <=? 13)) || ((28 <=? c) && (c <=? 32))
  || (c =? 133) || (c =? 160) || (c =? 5760)
  || ((8192 <=? c) && (c <=? 8202))
  || (c =? 8232) || (c =? 8233) || (c =? 8239) || (c =? 8287)
  || (c =? 12288).

(** The Unicode tables of the Python runtime that the program consults
    beyond ASCII: which code points are alphanumeric ([str.isalnum], hence
    the class [\w]) and how a code point is lower-cased.  The lower-casing
    of a code point may produce several code points and may look at the
    text around it (the final sigma), so it receives the text before and
    after. *)
Record unicode_tables : Type := {
  uni_alnum : N -> bool;
  uni_lower : pystr -> N -> pystr -> pystr
}.

(** Tables under which no code point beyond ASCII is alphanumeric or
    cased; they serve to run the program on ASCII documents. *)
Definition ascii_tables : unicode_tables :=
  {| uni_alnum := fun _ => false; uni_lower := fun _ c _ => [c] |}.

Definition is_ascii_alnum (c : N) : bool :=
  ((48 <=? c) && (c <=? 57)) || ((65 <=? c) && (c <=? 90))
  || ((97 <=? c) && (c <=? 122)).

(** The class [\w]: alphanumeric or underscore. *)
Definition is_word (db : unicode_tables) (c : N) : bool :=
  if c <? 128 then is_ascii_alnum c || (c =? 95) else uni_alnum db c.

Definition ascii_lower (c : N) : N :=
  if (65 <=? c) && (c <=? 90) then c + 32 else c.

Fixpoint lower_go (db : unicode_tables) (before_rev s : pystr) : pystr :=
  match s with
  | [] => []
  | c :: s' =>
      (if c <? 128 then [ascii_lower c]
       else uni_lower db (rev before_rev) c s')
      ++ lower_go db (c :: before_rev) s'
  end.

(** [s.lower()] *)
Definition lower (db : unicode_tables) (s : pystr) : pystr :=
  lower_go db [] s.

Fixpoint lstrip (s : pystr) : pystr :=
  match s with
  | c :: s' => if is_space c then lstrip s' else s
  | [] => []
  end.

Definition rstrip (s : pystr) : pystr := rev (lstrip (rev s)).

(** [s.strip()] *)
Definition strip (s : pystr) : pystr := rstrip (lstrip s).

(** [len(s.split())]: the number of maximal runs of non-whitespace.
    [inside] tells whether the previous code point was part of a run. *)
Fixpoint count_fields (inside : bool) (s : pystr) : nat :=
  match s with
  | [] => 0
  | c :: s' =>
      if is_space c then count_fields false s'
      else if inside then count_fields true s'
      else S (count_fields true s')
  end.

Fixpoint is_prefix (p s : pystr) : bool :=
  match p, s with
  | [], _ => true
  | _ :: _, [] => false
  | x :: p', y :: s' => (x =? y) && is_prefix p' s'
  end.

(** [s.count(sub)] for a non-empty [sub]: the number of non-overlapping
    occurrences, found from left to right.  [skip] is the number of code
    points still covered by the occurrence found last. *)
Fixpoint count_sub (sub : pystr) (skip : nat) (s : pystr) : nat :=
  match s with
  | [] => 0
  | _ :: s' =>
      match skip with
      | S k => count_sub sub k s'
      | O =>
          if is_prefix sub s then S (count_sub sub (pred (length sub)) s')
          else count_sub sub 0 s'
      end
  end.

(** [os.path.basename] (POSIX): what follows the last slash. *)
Fixpoint basename_go (acc s : pystr) : pystr :=
  match s with
  | [] => acc
  | c :: s' => if c =? 47 then basename_go s' s' else basename_go acc s'
  end.

Definition basename (p : pystr) : pystr := basename_go p p.

(** ** Regular expressions *)

Module Re.

(** The pieces the program's patterns are made of.  A repetition applies
    to a character class; [cap] marks the repetition that is the pattern's
    group 1 (no pattern of the program has more than one group), [greedy]
    distinguishes [*], [+], [{m,n}] from [*?]. *)
Inductive atom : Type :=
| Bol                                   (* ^ under re.MULTILINE *)
| Eol                                   (* $ under re.MULTILINE *)
| WordB (isw : N -> bool)               (* \b *)
| Chr (cls : N -> bool)                 (* one code point of a class *)
| Rep (cap greedy : bool) (cls : N -> bool) (lo : nat) (hi : option nat).

Definition regex : Type := list atom.

(** The result of a match at a position: the number of code points it
    spans and the text of group 1 (empty when there is no group). *)
Definition mres : Type := (nat * pystr)%type.

(** What remains of a pattern, as a function of the code point before the
    current position and the text from it. *)
Definition cont : Type := option N -> pystr -> option mres.

Definition at_bol (prev : option N) : bool :=
  match prev with None => true | Some c => c =? NL end.

Definition at_eol (s : pystr) : bool :=
  match s with [] => true | c :: _ => c =? NL end.

Definition word_before (isw : N -> bool) (prev : option N) : bool :=
  match prev with None => false | Some c => isw c end.

Definition word_after (isw : N -> bool) (s : pystr) : bool :=
  match s with [] => false | c :: _ => isw c end.

Definition may_repeat (hi : option nat) : bool :=
  match hi with Some O => false | _ => true end.

Definition bump (cap : bool) (c : N) (r : option mres) : option mres :=
  match r with
  | Some (n, g) => Some (S n, if cap then c :: g else g)
  | None => None
  end.

(** A repetition followed by the continuation [k].  A greedy repetition
    first tries to take one more code point and falls back to stopping; a
    lazy one first tries to stop. *)
Fixpoint rep (cap greedy : bool) (cls : N -> bool) (k : cont)
    (lo : nat) (hi : option nat) (prev : option N) (s : pystr)
    {struct s} : option mres :=
  if greedy then
    match
      match s with
      | c :: s' =>
          if cls c && may_repeat hi
          then bump cap c (rep cap greedy cls k (pred lo) (option_map pred hi) (Some c) s')
          else None
      | [] => None
      end
    with
    | Some r => Some r
    | None => match lo with O => k prev s | S _ => None end
    end
  else
    match match lo with O => k prev s | S _ => None end with
    | Some r => Some r
    | None =>
        match s with
        | c :: s' =>
            if cls c && may_repeat hi
            then bump cap c (rep cap greedy cls k (pred lo) (option_map pred hi) (Some c) s')
            else None
        | [] => None
        end
    end.

(** [rmatch p prev s]: the match of [p] that starts exactly at the current
    position, as [re]'s backtracking finds it. *)
Fixpoint rmatch (p : regex) : cont :=
  match p with
  | [] => fun _ _ => Some (O, [])
  | Bol :: p' => fun prev s => if at_bol prev then rmatch p' prev s else None
  | Eol :: p' => fun prev s => if at_eol s then rmatch p' prev s else None
  | WordB isw :: p' => fun prev s =>
      if xorb (word_before isw prev) (word_after isw s)
      then rmatch p' prev s else None
  | Chr cls :: p' => fun prev s =>
      match s with
      | c :: s' => if cls c then bump false c (rmatch p' (Some c) s') else None
      | [] => None
      end
  | Rep cap greedy cls lo hi :: p' => rep cap greedy cls (rmatch p') lo hi
  end.

(** [re.search]: the first position at which the pattern matches, with the
    match found there. *)
Fixpoint search_from (p : regex) (prev : option N) (s : pystr)
    : option (nat * mres) :=
  match rmatch p prev s with
  | Some r => Some (O, r)
  | None =>
      match s with
      | [] => None
      | c :: s' =>
          match search_from p (Some c) s' with
          | Some (i, r) => Some (S i, r)
          | None => None
          end
      end
  end.

Definition search (p : regex) (s : pystr) : option (nat * mres) :=
  search_from p None s.

(** [re.finditer]: the non-overlapping matches from left to right, each
    with its text and its group 1.  [skip] counts the code points still
    covered by the match found last.  (An empty match would be recorded
    and the scan moved on by one code point; no pattern of the program
    matches the empty string.) *)
Fixpoint finditer_go (p : regex) (skip : nat) (prev : option N) (s : pystr)
    : list (pystr * pystr) :=
  match skip with
  | S k =>
      match s with
      | [] => []
      | c :: s' => finditer_go p k (Some c) s'
      end
  | O =>
      match rmatch p prev s with
      | Some (n, g) =>
          (take n s, g) ::
          match s with
          | [] => []
          | c :: s' => finditer_go p (pred n) (Some c) s'
          end
      | None =>
          match s with
          | [] => []
          | c :: s' => finditer_go p O (Some c) s'
          end
      end
  end.

Definition finditer (p : regex) (s : pystr) : list (pystr * pystr) :=
  finditer_go p O None s.

(** [re.findall] for a pattern without a group: the matched texts. *)
Definition findall (p : regex) (s : pystr) : list pystr :=
  map fst (finditer p s).

(** [re.findall] for a pattern with one group: the texts of the group. *)
Definition findall_group (p : regex) (s : pystr) : list pystr :=
  map snd (finditer p s).

(** The replacement templates of the program: a fixed text, or [\1]. *)
Inductive template : Type :=
| Const (t : pystr)
| Group1.

Definition expand (r : template) (g : pystr) : pystr :=
  match r with Const t => t | Group1 => g end.

(** [re.sub]: every non-overlapping match replaced, the rest copied. *)
Fixpoint sub_go (p : regex) (r : template) (skip : nat) (prev : option N)
    (s : pystr) : pystr :=
  match skip with
  | S k =>
      match s with
      | [] => []
      | c :: s' => sub_go p r k (Some c) s'
      end
  | O =>
      match rmatch p prev s with
      | Some (n, g) =>
          expand r g ++
          match s with
          | [] => []
          | c :: s' =>
              match n with
              | O => c :: sub_go p r O (Some c) s'
              | S k => sub_go p r k (Some c) s'
              end
          end
      | None =>
          match s with
          | [] => []
          | c :: s' => c :: sub_go p r O (Some c) s'
          end
      end
  end.

Definition sub (p : regex) (r : template) (s : pystr) : pystr :=
  sub_go p r O None s.

(** Character classes. *)
Definition lit (c : N) : atom := Chr (N.eqb c).
Definition dot (c : N) : bool := negb (c =? NL).
Definition any (c : N) : bool := true.
Definition other_than (x : N) (c : N) : bool := negb (c =? x).
Definition one_of (xs : list N) (c : N) : bool := existsb (N.eqb c) xs.

(** Quantifiers. *)
Definition plus (cls : N -> bool) : atom := Rep false true cls 1 None.
Definition star (cls : N -> bool) : atom := Rep false true cls 0 None.
Definition lazy_star (cls : N -> bool) : atom := Rep false false cls 0 None.
Definition between (cls : N -> bool) (lo hi : nat) : atom :=
  Rep false true cls lo (Some hi).
Definition group_plus (cls : N -> bool) : atom := Rep true true cls 1 None.
Definition group_star (cls : N -> bool) : atom := Rep true true cls 0 None.

End Re.

Import Re.

(** Code points the patterns name. *)
Definition HASH : N := 35.      (* # *)
Definition LBRACK : N := 91.    (* [ *)
Definition RBRACK : N := 93.    (* ] *)
Definition LPAREN : N := 40.    (* ( *)
Definition RPAREN : N := 41.    (* ) *)
Definition BANG : N := 33.      (* ! *)
Definition TICK : N := 96.      (* ` *)
Definition STAR : N := 42.      (* * *)
Definition MINUS : N := 45.     (* - *)
Definition PLUS : N := 43.      (* + *)
Definition SPACE : N := 32.

(** ** The patterns of the program *)

(** [^#\s+(.+)$], re.MULTILINE (load_content) *)
Definition re_title : regex :=
  [Bol; lit HASH; plus is_space; group_plus dot; Eol].

(** [^#{1,6}\s+.*$], re.MULTILINE *)
Definition re_header : regex :=
  [Bol; between (N.eqb HASH) 1 6; plus is_space; star dot; Eol].

(** [\[([^\]]+)\]\([^\)]+\)] *)
Definition re_link : regex :=
  [lit LBRACK; group_plus (other_than RBRACK); lit RBRACK;
   lit LPAREN; plus (other_than RPAREN); lit RPAREN].

(** [! \[ ( [^\]]* ) \] \( [^\)]+ \)], its pieces set apart here *)
Definition re_image : regex :=
  [lit BANG; lit LBRACK; group_star (other_than RBRACK); lit RBRACK;
   lit LPAREN; plus (other_than RPAREN); lit RPAREN].

(** [```[\s\S]*?```] *)
Definition re_fence : regex :=
  [lit TICK; lit TICK; lit TICK; lazy_star any; lit TICK; lit TICK; lit TICK].

(** [`([^`]+)`] *)
Definition re_code : regex :=
  [lit TICK; group_plus (other_than TICK); lit TICK].

(** [\*\*([^\*]+)\*\*] *)
Definition re_bold : regex :=
  [lit STAR; lit STAR; group_plus (other_than STAR); lit STAR; lit STAR].

(** [\*([^\*]+)\*] *)
Definition re_italic : regex :=
  [lit STAR; group_plus (other_than STAR); lit STAR].

(** [^[\s]*[-\*\+]\s+], re.MULTILINE *)
Definition re_bullet : regex :=
  [Bol; star is_space; Chr (one_of [MINUS; STAR; PLUS]); plus is_space].

(** [^#{2,6}\s+.+], re.MULTILINE (analyze_structure) *)
Definition re_subheading : regex :=
  [Bol; between (N.eqb HASH) 2 6; plus is_space; plus dot].

(** [\b\w+\b] (analyze_content) *)
Definition re_word (db : unicode_tables) : regex :=
  [WordB (is_word db); plus (is_word db); WordB (is_word db)].

(** [\s+] (generate_meta_description) *)
Definition re_spaces : regex := [plus is_space].

(** ** Loading *)

(** The substitutions of [_clean_markdown], in the order of the source. *)
Definition cleaning_steps : list (regex * template) :=
  [ (re_header, Const []);
    (re_link, Group1);
    (re_image, Const []);
    (re_fence, Const []);
    (re_code, Group1);
    (re_bold, Group1);
    (re_italic, Group1);
    (re_bullet, Const []) ].

(** [BlogSEOAnalyzer._clean_markdown] *)
Definition _clean_markdown (text : pystr) : pystr :=
  let text := sub re_header (Const []) text in
  let text := sub re_link Group1 text in
  let text := sub re_image (Const []) text in
  let text := sub re_fence (Const []) text in
  let text := sub re_code Group1 text in
  let text := sub re_bold Group1 text in
  let text := sub re_italic Group1 text in
  let text := sub re_bullet (Const []) text in
  strip text.

(** The title that [load_content] extracts; the attribute keeps its
    initial value, the empty string, when no line matches. *)
Definition extract_title (text : pystr) : pystr :=
  match search re_title text with
  | Some (_, (_, g)) => strip g
  | None => []
  end.

(** ** Values, exceptions, output *)

#[local] Open Scope Z_scope.

(** The values the analyser stores in its dictionaries.  [VTenths t] is
    the float that [round(x, 1)] returns for a finite [x]: the double
    nearest to [t/10], which Python prints as that decimal. *)
Inductive pyval : Type :=
| VInt (z : Z)
| VFloat (f : spec_float)
| VTenths (t : Z)
| VStr (s : pystr)
| VList (l : list pystr)
| VDict (d : gmap string pyval).

(** The exceptions that can escape.  [NotRendered] is not a Python
    exception: it marks the places where the report would have to format a
    value of a kind the analyser never stores under that key. *)
Inductive exn : Type :=
| KeyError (key : string)
| ZeroDivisionError
| NotRendered.

Inductive result (A : Type) : Type :=
| Ok (a : A)
| Raise (e : exn).
Arguments Ok {A} a.
Arguments Raise {A} e.

#[global] Instance result_ret : MRet result := fun A a => Ok a.
#[global] Instance result_bind : MBind result := fun A B f m =>
  match m with Ok a => f a | Raise e => Raise e end.

(** Standard output: the texts printed so far, one per call of [print]. *)
Definition stdout : Type := list pystr.

(** A computation that prints and may raise. *)
Definition io (A : Type) : Type := stdout -> stdout * result A.

#[global] Instance io_ret : MRet io := fun A a out => (out, Ok a).
#[global] Instance io_bind : MBind io := fun A B f m out =>
  match m out with
  | (out', Ok a) => f a out'
  | (out', Raise e) => (out', Raise e)
  end.

Definition print (line : pystr) : io unit := fun out => (out ++ [line], Ok tt).

Definition lift {A : Type} (r : result A) : io A := fun out => (out, r).

(** [d[key]] *)
Definition getitem (d : gmap string pyval) (key : string) : result pyval :=
  match d !! key with
  | Some v => Ok v
  | None => Raise (KeyError key)
  end.

Definition get_dict (d : gmap string pyval) (key : string)
    : result (gmap string pyval) :=
  v ← getitem d key;
  match v with VDict d' => Ok d' | _ => Raise NotRendered end.

Definition get_int (d : gmap string pyval) (key : string) : result Z :=
  v ← getitem d key;
  match v with VInt z => Ok z | _ => Raise NotRendered end.

Definition get_list (d : gmap string pyval) (key : string)
    : result (list pystr) :=
  v ← getitem d key;
  match v with VList l => Ok l | _ => Raise NotRendered end.

Definition get_str (d : gmap string pyval) (key : string) : result pystr :=
  v ← getitem d key;
  match v with VStr s => Ok s | _ => Raise NotRendered end.

Definition get_tenths (d : gmap string pyval) (key : string) : result Z :=
  v ← getitem d key;
  match v with VTenths t => Ok t | _ => Raise NotRendered end.

(** [str(z)] for an integer. *)
Definition str_int (z : Z) : pystr :=
  u (DecimalString.NilZero.string_of_int (Z.to_int z)).

(** [str(x)] for the float [VTenths t]. *)
Definition str_tenths (t : Z) : pystr :=
  (if t <? 0 then u "-" else [])
  ++ str_int (Z.abs t / 10) ++ u "." ++ str_int (Z.abs t mod 10).

(** ** Floating point *)

Definition prec : Z := 53.
Definition emax : Z := 1024.

(** [float(z)] *)
Definition float_of_int (z : Z) : spec_float :=
  binary_normalize prec emax z 0 false.

Definition int_as_float (z : Z) : spec_float :=
  match z with
  | Z0 => S754_zero false
  | Zpos p => S754_finite false p 0
  | Zneg p => S754_finite true p 0
  end.

(** [a / b] on integers: the exact quotient, rounded once. *)
Definition py_truediv (a b : Z) : result spec_float :=
  if b =? 0 then Raise ZeroDivisionError
  else Ok (SFdiv prec emax (int_as_float a) (int_as_float b)).

(** The integer nearest to [n / d] for [d > 0], ties to the even one. *)
Definition div_half_even (n d : Z) : Z :=
  let q := n / d in
  let r := n mod d in
  match 2 * r ?= d with
  | Lt => q
  | Gt => q + 1
  | Eq => if Z.even q then q else q + 1
  end.

(** The number of tenths in the decimal that [round(x, 1)] rounds a
    finite [x] to: the exact value of [x] times ten, rounded to the
    nearest integer, ties to even. *)
Definition tenths_of (x : spec_float) : Z :=
  match x with
  | S754_finite s m e =>
      let t :=
        match e with
        | Zneg k => div_half_even (10 * Zpos m) (2 ^ Zpos k)
        | _ => 10 * Zpos m * 2 ^ e
        end in
      if s then - t else t
  | _ => 0
  end.

(** [round(x, 1)]: a float that is not finite is returned as it is. *)
Definition py_round1 (x : spec_float) : pyval :=
  match x with
  | S754_infinity _ | S754_nan => VFloat x
  | _ => VTenths (tenths_of x)
  end.

(** The float literal [0.5]. *)
Definition half : spec_float := binary_normalize prec emax 1 (-1) false.

(** ** The analyser *)

(** The attributes of a [BlogSEOAnalyzer] object. *)
Record BlogSEOAnalyzer : Type := {
  file_path : pystr;
  content : pystr;
  title : pystr;
  word_count : Z;
  keywords : list pystr;
  analysis_results : gmap string pyval
}.

(** [BlogSEOAnalyzer.__init__] *)
Definition init (path : pystr) : BlogSEOAnalyzer :=
  {| file_path := path; content := []; title := []; word_count := 0;
     keywords := []; analysis_results := ∅ |}.

(** What opening and reading the file does. *)
Inductive read_outcome : Type :=
| Contents (text : pystr)
| FileNotFound
| ReadFailed (message : pystr).

(** The file system, as far as the program sees it. *)
Definition filesystem : Type := pystr -> read_outcome.

(** [BlogSEOAnalyzer.load_content] *)
Definition load_content (fs : filesystem) (self : BlogSEOAnalyzer)
    : io (BlogSEOAnalyzer * bool) :=
  match fs (file_path self) with
  | Contents text =>
      let self :=
        {| file_path := file_path self;
           content := _clean_markdown text;
           title := match search re_title text with
                    | Some (_, (_, g)) => strip g
                    | None => title self
                    end;
           word_count := word_count self;
           keywords := keywords self;
           analysis_results := analysis_results self |} in
      mret (self, true)
  | FileNotFound =>
      _ ← print (u "Error: File '" ++ file_path self ++ u "' not found.");
      mret (self, false)
  | ReadFailed message =>
      _ ← print (u "Error reading file: " ++ message);
      mret (self, false)
  end.

(** [BlogSEOAnalyzer.analyze_title] *)
Definition analyze_title (db : unicode_tables) (self : BlogSEOAnalyzer)
    : gmap string pyval :=
  match title self with
  | [] =>
      {[ "score" := VInt 0;
         "issues" := VList [u "No title found (first # heading)"] ]}
  | _ =>
      let len := Z.of_nat (length (title self)) in
      let score := 100 in
      let issues := [] in
      let '(score, issues) :=
        if len <? 30
        then (score - 30, issues ++ [u "Title too short (< 30 characters)"])
        else if len >? 60
        then (score - 20, issues ++ [u "Title too long (> 60 characters)"])
        else (score, issues) in
      let words := count_fields false (lower db (title self)) in
      let '(score, issues) :=
        if Z.of_nat words <? 3
        then (score - 10, issues ++ [u "Title lacks descriptive keywords"])
        else (score, issues) in
      {[ "score" := VInt (Z.max 0 score);
         "length" := VInt len;
         "issues" := VList issues;
         "suggestions" := VList [u "Include primary keyword in title";
                                 u "Keep title between 30-60 characters"] ]}
  end.

Definition stop_words : list pystr :=
  map u ["the"; "a"; "an"; "and"; "or"; "but"; "in"; "on"; "at"; "to";
         "for"; "of"; "with"; "by"; "is"; "are"; "was"; "were"; "be";
         "been"; "being"; "have"; "has"; "had"; "do"; "does"; "did";
         "will"; "would"; "could"; "should"; "may"; "might"; "must";
         "can"; "shall"].

(** [collections.Counter]: the distinct words in the order of their first
    occurrence, each with its number of occurrences. *)
Fixpoint counter_add (w : pystr) (c : list (pystr * nat))
    : list (pystr * nat) :=
  match c with
  | [] => [(w, 1%nat)]
  | (x, n) :: c' =>
      if decide (x = w) then (x, S n) :: c' else (x, n) :: counter_add w c'
  end.

Definition Counter (ws : list pystr) : list (pystr * nat) :=
  fold_left (fun c w => counter_add w c) ws [].

(** Insertion into a list sorted by decreasing count, before the entries
    that do not count more. *)
Fixpoint insert_by_count (x : pystr * nat) (l : list (pystr * nat))
    : list (pystr * nat) :=
  match l with
  | [] => [x]
  | y :: l' =>
      if (snd y <=? snd x)%nat then x :: l else y :: insert_by_count x l'
  end.

(** [Counter.most_common(n)]: the [n] most frequent entries, by decreasing
    count; entries with equal counts keep the order of the counter. *)
Definition most_common (n : nat) (c : list (pystr * nat))
    : list (pystr * nat) :=
  take n (foldr insert_by_count [] c).

(** The tokens of [analyze_content]. *)
Definition words_of (db : unicode_tables) (text : pystr) : list pystr :=
  findall (re_word db) (lower db text).

Definition filtered_words (ws : list pystr) : list pystr :=
  filter (fun w => (w ∉ stop_words) ∧ (2 < length w)%nat) ws.

Definition keywords_of (ws : list pystr) : list pystr :=
  map fst (filter (fun wc => (1 < snd wc)%nat)
                  (most_common 10 (Counter (filtered_words ws)))).

(** [BlogSEOAnalyzer.analyze_content] *)
Definition analyze_content (db : unicode_tables) (self : BlogSEOAnalyzer)
    : result (BlogSEOAnalyzer * gmap string pyval) :=
  let words := words_of db (content self) in
  let self :=
    {| file_path := file_path self; content := content self;
       title := title self;
       word_count := Z.of_nat (length words);
       keywords := keywords self;
       analysis_results := analysis_results self |} in
  let score := 100 in
  let issues := [] in
  let '(score, issues) :=
    if word_count self <? 300
    then (score - 40, issues ++ [u "Content too short (< 300 words)"])
    else if word_count self >? 2000
    then (score - 10, issues ++ [u "Content very long (> 2000 words)"])
    else (score, issues) in
  let self :=
    {| file_path := file_path self; content := content self;
       title := title self; word_count := word_count self;
       keywords := keywords_of words;
       analysis_results := analysis_results self |} in
  '(score, issues) ←
    match keywords self with
    | primary_keyword :: _ =>
        let occurrences :=
          count_sub primary_keyword 0 (lower db (content self)) in
        ratio ← py_truediv (Z.of_nat occurrences) (word_count self);
        let density := SFmul prec emax ratio (float_of_int 100) in
        if SFltb density half
        then Ok (score - 15, issues ++ [u "Low keyword density (< 0.5%)"])
        else if SFltb (float_of_int 3) density
        then Ok (score - 10,
                 issues ++ [u "High keyword density (> 3% - may be keyword stuffing)"])
        else Ok (score, issues)
    | [] => Ok (score, issues)
    end;
  Ok (self,
      {[ "score" := VInt (Z.max 0 score);
         "word_count" := VInt (word_count self);
         "keywords" := VList (take 5 (keywords self));
         "issues" := VList issues;
         "suggestions" := VList [u "Aim for 300-1500 words";
                                 u "Use primary keyword naturally";
                                 u "Include related keywords"] ]}).

(** [BlogSEOAnalyzer.analyze_structure] *)
Definition analyze_structure (self : BlogSEOAnalyzer) : gmap string pyval :=
  let score := 100 in
  let issues := [] in
  let headings := findall re_subheading (content self) in
  let '(score, issues) :=
    if Z.of_nat (length headings) <? 2
    then (score - 20, issues ++ [u "Few or no subheadings (H2-H6)"])
    else (score, issues) in
  let lists := Z.of_nat (length (findall re_bullet (content self))) in
  let '(score, issues) :=
    if lists <? 1
    then (score - 10, issues ++ [u "No bullet lists found"])
    else (score, issues) in
  let links := Z.of_nat (length (findall_group re_link (content self))) in
  let '(score, issues) :=
    if links <? 1
    then (score - 5, issues ++ [u "No internal/external links"])
    else (score, issues) in
  {[ "score" := VInt (Z.max 0 score);
     "headings_count" := VInt (Z.of_nat (length headings));
     "lists_count" := VInt lists;
     "links_count" := VInt links;
     "issues" := VList issues;
     "suggestions" := VList [u "Use H2/H3 headings to structure content";
                             u "Include bullet lists for readability";
                             u "Add relevant internal/external links"] ]}.

(** The text [generate_meta_description] truncates: the content stripped,
    then every run of whitespace replaced by one space. *)
Definition collapsed (text : pystr) : pystr :=
  sub re_spaces (Const [SPACE]) (strip text).

(** [BlogSEOAnalyzer.generate_meta_description] *)
Definition generate_meta_description (self : BlogSEOAnalyzer) : pystr :=
  match title self with
  | [] => u "No title available for meta description generation"
  | _ =>
      let clean_content := collapsed (content self) in
      if (150 <? length clean_content)%nat
      then take 147 clean_content ++ u "..."
      else clean_content
  end.

(** [results[which]["score"]] *)
Definition score_of (results : gmap string pyval) (which : string)
    : result Z :=
  d ← get_dict results which; get_int d "score".

(** [BlogSEOAnalyzer.run_analysis], once the content is loaded. *)
Definition analyze (db : unicode_tables) (self : BlogSEOAnalyzer)
    : result BlogSEOAnalyzer :=
  let title_analysis := analyze_title db self in
  '(self, content_analysis) ← analyze_content db self;
  let structure_analysis := analyze_structure self in
  let meta_description := generate_meta_description self in
  let results : gmap string pyval :=
    {[ "title_analysis" := VDict title_analysis;
       "content_analysis" := VDict content_analysis;
       "structure_analysis" := VDict structure_analysis;
       "meta_description" := VStr meta_description ]} in
  t ← score_of results "title_analysis";
  c ← score_of results "content_analysis";
  s ← score_of results "structure_analysis";
  overall_score ← py_truediv (t + c + s) 3;
  let results := <[ "overall_score" := py_round1 overall_score ]> results in
  Ok {| file_path := file_path self; content := content self;
        title := title self; word_count := word_count self;
        keywords := keywords self; analysis_results := results |}.

(** [BlogSEOAnalyzer.run_analysis]: the results, or [None] when the file
    could not be loaded. *)
Definition run_analysis (db : unicode_tables) (fs : filesystem)
    (self : BlogSEOAnalyzer)
    : io (BlogSEOAnalyzer * option (gmap string pyval)) :=
  '(self, loaded) ← load_content fs self;
  if negb loaded then mret (self, None)
  else
    self ← lift (analyze db self);
    mret (self, Some (analysis_results self)).

(** The listing of the issues or suggestions of one analysis: nothing when
    the list is empty. *)
Definition print_items (heading : pystr) (items : list pystr) : io unit :=
  match items with
  | [] => mret tt
  | _ =>
      _ ← print heading;
      foldr (fun item rest => _ ← print (u "   - " ++ item); rest)
            (mret tt) items
  end.

Definition rule : pystr := repeat 61%N 50.

(** [sep.join(items)] *)
Fixpoint join (sep : pystr) (items : list pystr) : pystr :=
  match items with
  | [] => []
  | [x] => x
  | x :: rest => x ++ sep ++ join sep rest
  end.

(** [not d] for a dictionary. *)
Definition is_empty_dict (d : gmap string pyval) : bool :=
  (size d =? 0)%nat.

(** [BlogSEOAnalyzer.print_report] *)
Definition print_report (self : BlogSEOAnalyzer) : io unit :=
  let results := analysis_results self in
  if is_empty_dict results then mret tt
  else
    _ ← print ([NL] ++ rule);
    _ ← print (u "SEO Analysis Report for: " ++ basename (file_path self));
    _ ← print rule;
    overall ← lift (get_tenths results "overall_score");
    _ ← print ([NL; 128202%N] ++ u " Overall SEO Score: "
               ++ str_tenths overall ++ u "/100");

    ta ← lift (get_dict results "title_analysis");
    score ← lift (get_int ta "score");
    _ ← print ([NL; 128221%N] ++ u " Title Analysis (Score: "
               ++ str_int score ++ u "/100)");
    _ ← match title self with
        | [] => mret tt
        | _ =>
            _ ← print (u "   Title: " ++ title self);
            len ← lift (get_int ta "length");
            print (u "   Length: " ++ str_int len ++ u " characters")
        end;
    issues ← lift (get_list ta "issues");
    _ ← print_items (u "   Issues:") issues;
    suggestions ← lift (get_list ta "suggestions");
    _ ← print_items (u "   Suggestions:") suggestions;

    ca ← lift (get_dict results "content_analysis");
    score ← lift (get_int ca "score");
    _ ← print ([NL; 128196%N] ++ u " Content Analysis (Score: "
               ++ str_int score ++ u "/100)");
    wc ← lift (get_int ca "word_count");
    _ ← print (u "   Word Count: " ++ str_int wc);
    _ ← match keywords self with
        | [] => mret tt
        | _ =>
            print (u "   Top Keywords: "
                   ++ join (u ", ") (take 3 (keywords self)))
        end;
    issues ← lift (get_list ca "issues");
    _ ← print_items (u "   Issues:") issues;
    suggestions ← lift (get_list ca "suggestions");
    _ ← print_items (u "   Suggestions:") suggestions;

    sa ← lift (get_dict results "structure_analysis");
    score ← lift (get_int sa "score");
    _ ← print ([NL; 127959%N; 65039%N] ++ u "  Structure Analysis (Score: "
               ++ str_int score ++ u "/100)");
    headings ← lift (get_int sa "headings_count");
    _ ← print (u "   Headings: " ++ str_int headings);
    lists ← lift (get_int sa "lists_count");
    _ ← print (u "   Lists: " ++ str_int lists);
    links ← lift (get_int sa "links_count");
    _ ← print (u "   Links: " ++ str_int links);
    issues ← lift (get_list sa "issues");
    _ ← print_items (u "   Issues:") issues;
    suggestions ← lift (get_list sa "suggestions");
    _ ← print_items (u "   Suggestions:") suggestions;

    _ ← print ([NL; 128269%N] ++ u " Suggested Meta Description:");
    meta ← lift (get_str results "meta_description");
    _ ← print (u "   " ++ meta);
    print ([NL] ++ rule).

(** How the process ends: with an exit status, or on an exception that
    nothing catches (the interpreter then prints a traceback on standard
    error and the exit status is 1). *)
Inductive outcome : Type :=
| Exit (code : Z)
| Uncaught (e : exn).

Definition exit_code (o : outcome) : Z :=
  match o with Exit code => code | Uncaught _ => 1 end.

(** [main], with [sys.argv] as [argv]: what it prints on standard output
    and how the process ends. *)
Definition main (db : unicode_tables) (fs : filesystem) (argv : list pystr)
    : stdout * outcome :=
  match argv with
  | [_; file_path] =>
      let analyzer := init file_path in
      match run_analysis db fs analyzer [] with
      | (out, Ok (analyzer, Some results)) =>
          if is_empty_dict results then (out, Exit 1)
          else
            match print_report analyzer out with
            | (out, Ok _) => (out, Exit 0)
            | (out, Raise e) => (out, Uncaught e)
            end
      | (out, Ok (_, None)) => (out, Exit 1)
      | (out, Raise e) => (out, Uncaught e)
      end
  | _ =>
      ([u "Usage: python blog_seo_analyzer.py <markdown_file>";
        u "Example: python blog_seo_analyzer.py my_blog_post.md"],
       Exit 1)
  end.


(** ** Notions the statements use *)

(** The analyser after [load_content] has read [text] from [path]. *)
Definition loaded (path text : pystr) : BlogSEOAnalyzer :=
  {| file_path := path; content := _clean_markdown text;
     title := extract_title text; word_count := 0; keywords := [];
     analysis_results := ∅ |}.

(** A file system in which every path holds [text]. *)
Definition always (text : pystr) : filesystem := fun _ => Contents text.

(** A file system without files. *)
Definition no_files : filesystem := fun _ => FileNotFound.

(** A file system that holds one regular file, [a.txt], which is empty.
    Opening a path below it raises [NotADirectoryError], a sibling of
    [FileNotFoundError] among the subclasses of [OSError]; any other path
    is not found. *)
Definition only_a_txt : filesystem := fun path =>
  if bool_decide (path = u "a.txt") then Contents []
  else if is_prefix (u "a.txt/") path
       then ReadFailed (u "[Errno 20] Not a directory: '" ++ path ++ u "'")
       else FileNotFound.

(** The document of the scenario: a title, an empty line, two words. *)
Definition hello_document : pystr :=
  u "# Hello" ++ [NL; NL] ++ u "Short text.".

(** How often [w] occurs in a list of tokens. *)
Definition occurrences (w : pystr) (ws : list pystr) : nat :=
  length (filter (fun x => x = w) ws).

(** What [round(total / 3, 1)] is checked against: the decimal rounding of
    the exact third, and the range of a mean of three scores. *)
Definition mean_check (total : Z) : bool :=
  match py_truediv total 3 with
  | Ok mean =>
      match py_round1 mean with
      | VTenths o =>
          (o =? div_half_even (10 * total) 3) && (0 <=? o) && (o <=? 1000)
      | _ => false
      end
  | Raise _ => false
  end.

(** A counter never counts more occurrences than there are. *)
Definition counts_within (c : list (pystr * nat)) (ws : list pystr) : Prop :=
  forall x n, (x, n) ∈ c -> (n <= occurrences x ws)%nat.

(** Every match that the continuation [k] finds satisfies [Q], a property
    of its span and group relative to the text it starts in. *)
Definition ensures (Q : nat -> pystr -> pystr -> Prop) (k : cont) : Prop :=
  forall prev s n g, k prev s = Some (n, g) -> Q n g s.

(** Every code point of [s] is whitespace. *)
Definition blank (s : pystr) : bool := forallb is_space s.

(** The length of the run of whitespace [s] starts with. *)
Fixpoint ws_run (s : pystr) : nat :=
  match s with
  | c :: s' => if is_space c then S (ws_run s') else O
  | [] => O
  end.

(** Following the words of the specification of the meta description:
    every run of whitespace collapsed to a single space ([in_run] tells
    whether the code point before belonged to a run), and then the ends
    trimmed. *)
Fixpoint collapse_runs (in_run : bool) (s : pystr) : pystr :=
  match s with
  | [] => []
  | c :: s' =>
      if is_space c
      then if in_run then collapse_runs true s'
           else SPACE :: collapse_runs true s'
      else c :: collapse_runs false s'
  end.

Definition collapsed_and_trimmed (text : pystr) : pystr :=
  strip (collapse_runs false text).

(** The pattern finds nothing in the text. *)
Definition absent (p : regex) (text : pystr) : bool :=
  match search p text with None => true | Some _ => false end.

(** A text without Markdown syntax, as the cleaner sees it: none of the
    patterns of its substitutions has a match. *)
Definition no_markdown (text : pystr) : bool :=
  forallb (fun step => absent (fst step) text) cleaning_steps.

(** A pattern without [^], [$] and [\b]: what it matches at a position
    does not depend on what comes before the position. *)
Definition context_free (p : regex) : bool :=
  forallb (fun a => match a with Chr _ | Rep _ _ _ _ _ => true | _ => false end) p.

(** A continuation that still succeeds when text is appended, and one that
    does not look at the code point before the position. *)
Definition extensible (k : cont) : Prop :=
  forall prev s t, is_Some (k prev s) -> is_Some (k prev (s ++ t)).

Definition blind (k : cont) : Prop :=
  forall prev prev' s, k prev s = k prev' s.

(** The number of number signs a text starts with, when whitespace
    follows them: what both heading patterns look for after [^]. *)
Fixpoint hash_run (s : pystr) : option nat :=
  match s with
  | [] => None
  | c :: s' =>
      if (HASH =? c)%N then option_map S (hash_run s')
      else if is_space c then Some O else None
  end.

(** The heading-stripping step of the cleaner. *)
Definition strip_headers (text : pystr) : pystr :=
  sub re_header (Const []) text.

(** A pattern that cannot match the empty string: it has a single code
    point or a repetition with a positive minimum. *)
Definition consumes (p : regex) : bool :=
  existsb (fun a => match a with
                    | Chr _ | Rep _ _ _ (S _) _ => true
                    | _ => false
                    end) p.

(** The patterns that occur in the program. *)
Definition program_patterns (db : unicode_tables) : list regex :=
  [re_title; re_header; re_link; re_image; re_fence; re_code; re_bold;
   re_italic; re_bullet; re_subheading; re_word db; re_spaces].

(** The lines that [print_report] prints for a list of issues or
    suggestions under its heading. *)
Definition item_lines (heading : pystr) (items : list pystr) : list pystr :=
  match items with
  | [] => []
  | _ :: _ => heading :: map (fun item => u "   - " ++ item) items
  end.

(** The fixed suggestions of the three analyses. *)
Definition title_suggestions : list pystr :=
  [u "Include primary keyword in title";
   u "Keep title between 30-60 characters"].

Definition content_suggestions : list pystr :=
  [u "Aim for 300-1500 words"; u "Use primary keyword naturally";
   u "Include related keywords"].

Definition structure_suggestions : list pystr :=
  [u "Use H2/H3 headings to structure content";
   u "Include bullet lists for readability";
   u "Add relevant internal/external links"].

(** The attributes of the analyser after [analyze_content]. *)
Definition counted (db : unicode_tables) (self : BlogSEOAnalyzer)
    : BlogSEOAnalyzer :=
  {| file_path := file_path self; content := content self;
     title := title self;
     word_count := Z.of_nat (length (words_of db (content self)));
     keywords := keywords_of (words_of db (content self));
     analysis_results := analysis_results self |}.

(** A text in which whitespace only occurs as single spaces between other
    code points: no whitespace at the start, none but the space, no two in
    a row.  [after_space] tells whether whitespace is excluded at the
    current position. *)
Fixpoint single_spaced (after_space : bool) (s : pystr) : bool :=
  match s with
  | [] => true
  | c :: s' =>
      if is_space c
      then (c =? SPACE)%N && negb after_space && single_spaced true s'
      else single_spaced false s'
  end.

(** A counter that is exact for a list of tokens: one entry for each
    distinct token, with the number of its occurrences. *)
Definition counter_exact (c : list (pystr * nat)) (ws : list pystr) : Prop :=
  NoDup (c.*1)
  /\ (forall x n, (x, n) ∈ c -> n = occurrences x ws)
  /\ (forall x, x ∈ ws -> x ∈ c.*1).

(** Entries in the order of [most_common]: no entry counts more than one
    before it. *)
Definition by_count (a b : pystr * nat) : Prop := (snd b <= snd a)%nat.

(** The length of the run of word characters [s] starts with. *)
Fixpoint word_run_length (isw : N -> bool) (s : pystr) : nat :=
  match s with
  | c :: s' => if isw c then S (word_run_length isw s') else O
  | [] => O
  end.

(** The maximal runs of word characters of a text, from left to right: a
    word character opens a run of its own when the code point after it is
    no word character, and otherwise joins the run that starts after
    it. *)
Fixpoint word_runs (isw : N -> bool) (s : pystr) : list pystr :=
  match s with
  | [] => []
  | c :: s' =>
      if isw c then
        if word_after isw s' then
          match word_runs isw s' with
          | r :: rs => (c :: r) :: rs
          | [] => [[c]]
          end
        else [c] :: word_runs isw s'
      else word_runs isw s'
  end.

(** ** Properties of the matcher *)

Module ReFacts.

(** The two alternatives of a repetition, named. *)
Lemma rep_eq cap greedy cls k lo hi prev s :
  rep cap greedy cls k lo hi prev s =
  let more :=
    match s with
    | c :: s' =>
        if cls c && may_repeat hi
        then bump cap c (rep cap greedy cls k (pred lo) (option_map pred hi) (Some c) s')
        else None
    | [] => None
    end in
  let stop := match lo with O => k prev s | S _ => None end in
  if greedy then match more with Some r => Some r | None => stop end
  else match stop with Some r => Some r | None => more end.
Proof. destruct s, greedy; reflexivity. Qed.

Lemma bump_Some cap c r n g :
  bump cap c r = Some (n, g) ->
  exists n' g', r = Some (n', g') /\ n = S n' /\ g = if cap then c :: g' else g'.
Proof.
  destruct r as [[n' g']|]; simpl; [|discriminate].
  intros [= <- <-]. eauto.
Qed.

Section Post.
(** A property of the span and the group of a match, relative to the
    text the match starts in, that survives taking one more code point
    in front. *)
Variable Q : nat -> pystr -> pystr -> Prop.
Hypothesis Q_shift : forall (cap : bool) c n g s,
  Q n g s -> Q (S n) (if cap then c :: g else g) (c :: s).

Lemma rep_ensures cap greedy cls k lo hi :
  ensures Q k -> ensures Q (rep cap greedy cls k lo hi).
Proof.
  intros Hk prev s. revert lo hi prev.
  induction s as [|c s IH]; intros lo hi prev n g; rewrite rep_eq; cbn zeta.
  - destruct greedy, lo; simpl; try discriminate.
    + apply Hk.
    + destruct (k prev []) as [r|] eqn:E; [|discriminate].
      intros [= ->]. apply (Hk _ _ _ _ E).
  - assert (Hmore : (if cls c && may_repeat hi
                     then bump cap c (rep cap greedy cls k (pred lo) (option_map pred hi) (Some c) s)
                     else None) = Some (n, g) -> Q n g (c :: s)).
    { destruct (cls c && may_repeat hi); [|discriminate].
      intros (n' & g' & Hr & -> & ->)%bump_Some.
      apply Q_shift. eapply IH, Hr. }
    assert (Hstop : match lo with O => k prev (c :: s) | S _ => None end = Some (n, g)
                    -> Q n g (c :: s)).
    { destruct lo; [apply Hk|discriminate]. }
    destruct greedy.
    + destruct (if cls c && may_repeat hi then _ else _) as [r|] eqn:E.
      * intros [= ->]. auto.
      * auto.
    + destruct (match lo with O => _ | S _ => _ end) as [r|] eqn:E.
      * intros [= ->]. auto.
      * auto.
Qed.

Lemma rmatch_ensures_app p1 p2 :
  ensures Q (rmatch p2) -> ensures Q (rmatch (p1 ++ p2)).
Proof.
  intros H2. induction p1 as [|a p1 IH]; [exact H2|].
  destruct a as [| |isw|cls|cap greedy cls lo hi]; simpl; intros prev s n g.
  - destruct (at_bol prev); [apply IH|discriminate].
  - destruct (at_eol s); [apply IH|discriminate].
  - destruct (xorb _ _); [apply IH|discriminate].
  - destruct s as [|c s]; [discriminate|].
    destruct (cls c); [|discriminate].
    intros (n' & g' & Hr & -> & ->)%bump_Some.
    apply (Q_shift false). eapply IH, Hr.
  - apply rep_ensures, IH.
Qed.
End Post.

(** A match spans no more than the text, and its group is made of code
    points of the text. *)
Lemma rmatch_within p prev s n g :
  rmatch p prev s = Some (n, g) ->
  (n <= length s)%nat /\ forall x, x ∈ g -> x ∈ s.
Proof.
  revert prev s n g.
  change (ensures (fun n g s => (n <= length s)%nat /\ forall x, x ∈ g -> x ∈ s) (rmatch p)).
  rewrite <- (app_nil_r p). apply rmatch_ensures_app.
  - intros cap c n g s [Hn Hg]. split; [simpl; lia|].
    intros x Hx. destruct cap.
    + apply elem_of_cons in Hx as [->|Hx]; [left|right; auto].
    + right; auto.
  - intros prev s n g [= <- <-]. split; [lia|]. intros x Hx. inversion Hx.
Qed.

(** A match of a pattern that ends with [$] ends at the end of a line. *)
Lemma rmatch_ends_line p prev s n g :
  rmatch (p ++ [Eol]) prev s = Some (n, g) -> at_eol (drop n s) = true.
Proof.
  revert prev s n g.
  change (ensures (fun n _ s => at_eol (drop n s) = true) (rmatch (p ++ [Eol]))).
  apply rmatch_ensures_app.
  - intros cap c n g s H. exact H.
  - intros prev s n g. simpl. destruct (at_eol s) eqn:E; [|discriminate].
    intros [= <- <-]. exact E.
Qed.

(** Where the pattern matches nowhere, [sub] changes nothing and
    [finditer] finds nothing. *)
Lemma sub_go_no_match p r prev s :
  search_from p prev s = None -> sub_go p r O prev s = s.
Proof.
  revert prev. induction s as [|c s IH]; intros prev; simpl.
  - destruct (rmatch p prev []); [discriminate|reflexivity].
  - destruct (rmatch p prev (c :: s)); [discriminate|].
    destruct (search_from p (Some c) s) as [[i m]|] eqn:E; [discriminate|].
    intros _. f_equal. apply IH, E.
Qed.

Lemma finditer_go_no_match p prev s :
  search_from p prev s = None -> finditer_go p O prev s = [].
Proof.
  revert prev. induction s as [|c s IH]; intros prev; simpl.
  - destruct (rmatch p prev []) as [[n g]|]; [discriminate|reflexivity].
  - destruct (rmatch p prev (c :: s)) as [[n g]|]; [discriminate|].
    destruct (search_from p (Some c) s) as [[i m]|] eqn:E; [discriminate|].
    intros _. apply IH, E.
Qed.

Lemma sub_no_match p r s : search p s = None -> sub p r s = s.
Proof. apply sub_go_no_match. Qed.

(** [sub] with a template of the program only removes code points. *)
Lemma sub_go_subset p r skip prev s x :
  (forall g, x ∈ expand r g -> x ∈ g) ->
  x ∈ sub_go p r skip prev s -> x ∈ s.
Proof.
  intros Hr. revert skip prev.
  induction s as [|c s IH]; intros skip prev; destruct skip as [|k]; simpl.
  - destruct (rmatch p prev []) as [[n g]|] eqn:E; [|auto].
    rewrite app_nil_r. intros Hx%Hr.
    apply rmatch_within in E as [_ Hg]. auto.
  - auto.
  - destruct (rmatch p prev (c :: s)) as [[n g]|] eqn:E.
    + intros [Hx%Hr|Hx]%elem_of_app.
      * apply rmatch_within in E as [_ Hg]. auto.
      * destruct n as [|n'].
        -- apply elem_of_cons in Hx as [->|Hx]; [left|right; eauto].
        -- right; eauto.
    + intros [->|Hx]%elem_of_cons; [left|right; eauto].
  - intros Hx. right; eauto.
Qed.

End ReFacts.

(** ** The patterns of the program *)

Import ReFacts.

(** No pattern of the program matches the empty string, so the treatment
    of empty matches in [sub] and [finditer] never comes into play. *)
Lemma consumes_nonempty p :
  consumes p = true -> ensures (fun n _ _ => (1 <= n)%nat) (rmatch p).
Proof.
  induction p as [|a p IH]; [discriminate|].
  destruct a as [| |isw|cls|cap greedy cls lo hi]; simpl; intros H prev s n g.
  - destruct (at_bol prev); [apply IH, H|discriminate].
  - destruct (at_eol s); [apply IH, H|discriminate].
  - destruct (xorb _ _); [apply IH, H|discriminate].
  - destruct s as [|c s]; [discriminate|]. destruct (cls c); [|discriminate].
    intros (n' & g' & _ & -> & _)%bump_Some. lia.
  - destruct lo as [|lo].
    + apply (rep_ensures (fun n _ _ => (1 <= n)%nat)); [intros; lia|].
      apply IH, H.
    + rewrite rep_eq. cbn zeta. destruct s as [|c s].
      * destruct greedy; discriminate.
      * destruct (cls c && may_repeat hi).
        -- destruct (bump cap c _) as [[n' g']|] eqn:E.
           ++ apply bump_Some in E as (n'' & g'' & _ & -> & _).
              destruct greedy; intros [= <- _]; lia.
           ++ destruct greedy; discriminate.
        -- destruct greedy; discriminate.
Qed.

Lemma program_patterns_consume db :
  Forall (fun p => consumes p = true) (program_patterns db).
Proof. repeat constructor. Qed.

(** The cleaner is its list of substitutions applied in order, then a
    strip. *)
Lemma clean_markdown_steps text :
  _clean_markdown text
  = strip (fold_left (fun t step => sub (fst step) (snd step) t)
                     cleaning_steps text).
Proof. reflexivity. Qed.

(** The matcher on some texts. *)
Example title_after_blank_lines :
  extract_title (u "#" ++ [NL; NL] ++ u "Hello") = u "Hello".
Proof. vm_compute. reflexivity. Qed.

Example title_of_blanks_is_empty :
  search re_title (u "#  ") = Some (0%nat, (3%nat, u " "))
  /\ extract_title (u "#  ") = [].
Proof. split; vm_compute; reflexivity. Qed.

Example fences_are_lazy :
  sub re_fence (Const []) (u "a```x```b```y```c") = u "abc".
Proof. vm_compute. reflexivity. Qed.

Example bold_before_italic :
  _clean_markdown (u "**a** and *b*") = u "a and b".
Proof. vm_compute. reflexivity. Qed.

Example links_keep_their_text :
  _clean_markdown (u "see [the docs](http://x.y/z) and [more](m)")
  = u "see the docs and more".
Proof. vm_compute. reflexivity. Qed.

Example image_without_alt_removed :
  _clean_markdown (u "a ![](pic.png) b") = u "a  b".
Proof. vm_compute. reflexivity. Qed.

Example bullets_lose_their_marker :
  _clean_markdown (u "- one" ++ [NL] ++ u "  * two" ++ [NL] ++ u "+ three")
  = u "one" ++ [NL] ++ u "two" ++ [NL] ++ u "three".
Proof. vm_compute. reflexivity. Qed.

Example words_are_runs_of_word_characters :
  words_of ascii_tables (u "It's a_b, C3!") = map u ["it"; "s"; "a_b"; "c3"].
Proof. vm_compute. reflexivity. Qed.

Example keywords_by_count_then_first_seen :
  keywords_of (words_of ascii_tables
                 (u "dog cat cat dog bird the the the bird cat emu"))
  = map u ["cat"; "dog"; "bird"].
Proof. vm_compute. reflexivity. Qed.

(** ** Loading and running *)

Lemma load_content_loaded fs path text out :
  fs path = Contents text ->
  load_content fs (init path) out = (out, Ok (loaded path text, true)).
Proof.
  intros H. unfold load_content, loaded, extract_title, init.
  cbn [file_path title word_count keywords analysis_results]. rewrite H.
  destruct (search re_title text) as [[i [n g]]|]; reflexivity.
Qed.

Lemma run_analysis_loaded db fs path text out :
  fs path = Contents text ->
  run_analysis db fs (init path) out =
  match analyze db (loaded path text) with
  | Ok self => (out, Ok (self, Some (analysis_results self)))
  | Raise e => (out, Raise e)
  end.
Proof.
  intros H. unfold run_analysis, mbind, io_bind.
  rewrite (load_content_loaded _ _ _ _ H). cbn [negb].
  unfold lift. destruct (analyze db (loaded path text)); reflexivity.
Qed.

(** C10, as stated, fails for a path that names no file because it lies
    below a regular file: opening it raises [NotADirectoryError], which the
    handler of [FileNotFoundError] does not catch, and the line printed is
    the one of the general handler. *)
Lemma path_below_a_file_is_another_error :
  only_a_txt (u "a.txt/b.md")
  = ReadFailed (u "[Errno 20] Not a directory: 'a.txt/b.md'")
  /\ main ascii_tables only_a_txt [u "blog_seo_analyser.py"; u "a.txt/b.md"]
     = ([u "Error reading file: [Errno 20] Not a directory: 'a.txt/b.md'"],
        Exit 1)
  /\ fst (main ascii_tables only_a_txt
               [u "blog_seo_analyser.py"; u "a.txt/b.md"])
     <> [u "Error: File 'a.txt/b.md' not found."].
Proof.
  split; [vm_compute; reflexivity|]. split; [vm_compute; reflexivity|].
  vm_compute. discriminate.
Qed.

(** C10, amended: when opening the path raises [FileNotFoundError], the
    program prints the one line [Error: File '<path>' not found.],
    [load_content] returns [False], [run_analysis] returns [None] without
    analysing anything, nothing else is printed, and the process exits with
    status 1. *)
Theorem missing_file_exits_1 db (fs : filesystem) (prog path : pystr) :
  fs path = FileNotFound ->
  let message := u "Error: File '" ++ path ++ u "' not found." in
  load_content fs (init path) [] = ([message], Ok (init path, false))
  /\ run_analysis db fs (init path) [] = ([message], Ok (init path, None))
  /\ main db fs [prog; path] = ([message], Exit 1).
Proof.
  intros H message.
  assert (Hload : load_content fs (init path) [] = ([message], Ok (init path, false))).
  { unfold load_content. simpl. rewrite H. reflexivity. }
  assert (Hrun : run_analysis db fs (init path) [] = ([message], Ok (init path, None))).
  { unfold run_analysis, mbind, io_bind. rewrite Hload. reflexivity. }
  repeat split; [exact Hload|exact Hrun|].
  unfold main. rewrite Hrun. reflexivity.
Qed.

Lemma missing_file_exits_1_witness :
  main ascii_tables no_files [u "blog_seo_analyser.py"; u "missing.md"]
  = ([u "Error: File 'missing.md' not found."], Exit 1).
Proof.
  apply (missing_file_exits_1 ascii_tables no_files
           (u "blog_seo_analyser.py") (u "missing.md")).
  reflexivity.
Defined.

(** C7: on a file that holds the document [# Hello], empty line,
    [Short text.], [load_content] sets the title [Hello] and the content
    [Short text.], and [run_analysis] prints nothing and returns these
    results: the title scores 60, with the penalties for a short title and
    for fewer than three words; the content has 2 words and scores 60, with
    the penalty for short content only; the structure scores 65, with the
    penalties for headings, lists and links; the overall score is 61.7. *)
Theorem hello_scenario db (fs : filesystem) (path : pystr) :
  fs path = Contents hello_document ->
  let results : gmap string pyval :=
    {[ "title_analysis" :=
         VDict {[ "score" := VInt 60;
                  "length" := VInt 5;
                  "issues" :=
                    VList [u "Title too short (< 30 characters)";
                           u "Title lacks descriptive keywords"];
                  "suggestions" :=
                    VList [u "Include primary keyword in title";
                           u "Keep title between 30-60 characters"] ]};
       "content_analysis" :=
         VDict {[ "score" := VInt 60;
                  "word_count" := VInt 2;
                  "keywords" := VList [];
                  "issues" :=
                    VList [u "Content too short (< 300 words)"];
                  "suggestions" :=
                    VList [u "Aim for 300-1500 words";
                           u "Use primary keyword naturally";
                           u "Include related keywords"] ]};
       "structure_analysis" :=
         VDict {[ "score" := VInt 65;
                  "headings_count" := VInt 0;
                  "lists_count" := VInt 0;
                  "links_count" := VInt 0;
                  "issues" :=
                    VList [u "Few or no subheadings (H2-H6)";
                           u "No bullet lists found";
                           u "No internal/external links"];
                  "suggestions" :=
                    VList [u "Use H2/H3 headings to structure content";
                           u "Include bullet lists for readability";
                           u "Add relevant internal/external links"] ]};
       "meta_description" := VStr (u "Short text.");
       "overall_score" := VTenths 617 ]} in
  load_content fs (init path) []
  = ([], Ok ({| file_path := path;
                content := u "Short text.";
                title := u "Hello";
                word_count := 0;
                keywords := [];
                analysis_results := ∅ |}, true))
  /\ run_analysis db fs (init path) []
     = ([], Ok ({| file_path := path;
                   content := u "Short text.";
                   title := u "Hello";
                   word_count := 2;
                   keywords := [];
                   analysis_results := results |}, Some results)).
Proof.
  intros H results. split.
  - rewrite (load_content_loaded fs path hello_document [] H).
    vm_compute. reflexivity.
  - rewrite (run_analysis_loaded db fs path hello_document [] H).
    vm_compute. reflexivity.
Qed.

Lemma hello_scenario_witness :
  exists self,
    run_analysis ascii_tables (always hello_document) (init (u "hello.md")) []
    = ([], Ok (self, Some (analysis_results self)))
    /\ title self = u "Hello"
    /\ word_count self = 2
    /\ analysis_results self !! "overall_score" = Some (VTenths 617).
Proof.
  destruct (hello_scenario ascii_tables (always hello_document)
              (u "hello.md") eq_refl) as [_ H].
  eexists. split; [exact H|]. repeat split; reflexivity.
Defined.

(** C1, on the empty file: the analysis itself goes through (no words, no
    keywords, hence no density check: the content analysis has the single
    issue of short content), but [print_report] then reads the key
    [suggestions] of a title analysis that has none, and the process ends
    on the uncaught [KeyError], exit status 1, the report cut after the
    title issue. *)
Theorem empty_file_report_raises db (prog path : pystr) :
  analyze db (loaded path [])
  = Ok {| file_path := path; content := []; title := [];
          word_count := 0; keywords := [];
          analysis_results :=
            {[ "title_analysis" :=
                 VDict {[ "score" := VInt 0;
                          "issues" :=
                            VList [u "No title found (first # heading)"] ]};
               "content_analysis" :=
                 VDict {[ "score" := VInt 60;
                          "word_count" := VInt 0;
                          "keywords" := VList [];
                          "issues" :=
                            VList [u "Content too short (< 300 words)"];
                          "suggestions" :=
                            VList [u "Aim for 300-1500 words";
                                   u "Use primary keyword naturally";
                                   u "Include related keywords"] ]};
               "structure_analysis" :=
                 VDict {[ "score" := VInt 65;
                          "headings_count" := VInt 0;
                          "lists_count" := VInt 0;
                          "links_count" := VInt 0;
                          "issues" :=
                            VList [u "Few or no subheadings (H2-H6)";
                                   u "No bullet lists found";
                                   u "No internal/external links"];
                          "suggestions" :=
                            VList [u "Use H2/H3 headings to structure content";
                                   u "Include bullet lists for readability";
                                   u "Add relevant internal/external links"] ]};
               "meta_description" :=
                 VStr (u "No title available for meta description generation");
               "overall_score" := VTenths 417 ]} |}
  /\ main db (always []) [prog; path]
     = ([ [NL] ++ rule;
          u "SEO Analysis Report for: " ++ basename path;
          rule;
          [NL; 128202%N] ++ u " Overall SEO Score: 41.7/100";
          [NL; 128221%N] ++ u " Title Analysis (Score: 0/100)";
          u "   Issues:";
          u "   - No title found (first # heading)" ],
        Uncaught (KeyError "suggestions"))
  /\ exit_code (snd (main db (always []) [prog; path])) = 1.
Proof. repeat split; vm_compute; reflexivity. Qed.

(** C4, on an image with an alternative text: the link substitution runs
    first and rewrites the bracketed part of the image, so the image
    pattern no longer applies; the exclamation mark and the alternative
    text stay. *)
Theorem image_alt_text_survives :
  _clean_markdown (u "![alt](url)") = u "!alt"
  /\ sub re_link Group1 (u "![alt](url)") = u "!alt"
  /\ sub re_image (Const []) (u "![alt](url)") = [].
Proof. repeat split; vm_compute; reflexivity. Qed.

(** ** The title *)

(** C5, as stated, fails on the text of the issue: the empty document has
    no title line, and the issue reads [No title found (first # heading)]. *)
Lemma no_title_issue_is_longer :
  search re_title [] = None
  /\ analyze_title ascii_tables (loaded [] []) !! "issues"
     = Some (VList [u "No title found (first # heading)"])
  /\ analyze_title ascii_tables (loaded [] []) !! "issues"
     <> Some (VList [u "No title found"]).
Proof.
  split; [reflexivity|]. split; [reflexivity|].
  vm_compute. discriminate.
Qed.

(** C5, amended: without a line that matches the title pattern the title
    stays empty, and the title analysis is the dictionary with score 0 and
    the single issue [No title found (first # heading)]; it has no entry
    for suggestions (and none for the length). *)
Theorem no_title_line_analysis db (path text : pystr) :
  search re_title text = None ->
  title (loaded path text) = []
  /\ analyze_title db (loaded path text)
     = {[ "score" := VInt 0;
          "issues" := VList [u "No title found (first # heading)"] ]}
  /\ analyze_title db (loaded path text) !! "score" = Some (VInt 0)
  /\ analyze_title db (loaded path text) !! "issues"
     = Some (VList [u "No title found (first # heading)"])
  /\ analyze_title db (loaded path text) !! "suggestions" = None
  /\ analyze_title db (loaded path text) !! "length" = None.
Proof.
  intros H.
  assert (Ht : title (loaded path text) = []).
  { simpl. unfold extract_title. rewrite H. reflexivity. }
  unfold analyze_title. rewrite Ht. repeat split; reflexivity.
Qed.

Lemma no_title_line_analysis_witness :
  analyze_title ascii_tables (loaded [] (u "plain words")) !! "score"
  = Some (VInt 0).
Proof.
  apply (no_title_line_analysis ascii_tables [] (u "plain words")).
  reflexivity.
Defined.

(** ** Keywords *)

Lemma occurrences_le_length w ws : (occurrences w ws <= length ws)%nat.
Proof. apply length_filter. Qed.

Lemma occurrences_snoc w x ws :
  occurrences w (ws ++ [x])
  = (occurrences w ws + if decide (x = w) then 1 else 0)%nat.
Proof.
  unfold occurrences. rewrite filter_app, length_app. f_equal.
  rewrite filter_cons, filter_nil. destruct (decide (x = w)); reflexivity.
Qed.

Lemma counter_add_within w c ws :
  counts_within c ws -> counts_within (counter_add w c) (ws ++ [w]).
Proof.
  unfold counts_within. induction c as [|[y m] c IH]; intros H x n; simpl.
  - intros [= -> ->]%list_elem_of_singleton. rewrite occurrences_snoc.
    destruct (decide (w = w)); [lia|congruence].
  - assert (Hc : forall x n, (x, n) ∈ c -> (n <= occurrences x ws)%nat).
    { intros x' n' Hin. apply H. right. exact Hin. }
    assert (Hy : (m <= occurrences y ws)%nat) by (apply H; left).
    destruct (decide (y = w)) as [->|Hne].
    + intros [[= -> ->]|Hin]%elem_of_cons.
      * rewrite occurrences_snoc. destruct (decide (w = w)); [lia|congruence].
      * rewrite occurrences_snoc. specialize (Hc _ _ Hin). lia.
    + intros [[= -> ->]|Hin]%elem_of_cons.
      * rewrite occurrences_snoc. lia.
      * apply IH; assumption.
Qed.

Lemma Counter_within ws : counts_within (Counter ws) ws.
Proof.
  unfold Counter.
  enough (G : forall l c seen, counts_within c seen ->
            counts_within (fold_left (fun c w => counter_add w c) l c) (seen ++ l)).
  { apply (G ws [] []). intros x n Hin. inversion Hin. }
  induction l as [|w l IH]; intros c seen H; simpl.
  - rewrite app_nil_r. exact H.
  - replace (seen ++ w :: l) with ((seen ++ [w]) ++ l)
      by (rewrite <- app_assoc; reflexivity).
    apply IH, counter_add_within, H.
Qed.

Lemma elem_of_insert_by_count y x l :
  y ∈ insert_by_count x l -> y = x \/ y ∈ l.
Proof.
  induction l as [|z l IH]; simpl.
  - intros ->%list_elem_of_singleton. left; reflexivity.
  - destruct (snd z <=? snd x)%nat.
    + intros [->|H]%elem_of_cons; [left; reflexivity|right; exact H].
    + intros [->|H]%elem_of_cons; [right; left|].
      destruct (IH H) as [->|H']; [left; reflexivity|right; right; exact H'].
Qed.

Lemma elem_of_most_common n c y : y ∈ most_common n c -> y ∈ c.
Proof.
  unfold most_common. intros H%elem_of_take.
  destruct H as (i & H & _). apply list_elem_of_lookup_2 in H.
  clear i. induction c as [|x c IH]; simpl in H; [inversion H|].
  apply elem_of_insert_by_count in H as [->|H]; [left|right; auto].
Qed.

(** Every keyword occurs at least twice among the filtered tokens. *)
Lemma keyword_occurs_twice ws kw :
  kw ∈ keywords_of ws -> (2 <= occurrences kw (filtered_words ws))%nat.
Proof.
  unfold keywords_of. intros ([w n] & -> & H)%list_elem_of_fmap.
  apply list_elem_of_filter in H as [Hn H]. simpl in *.
  apply elem_of_most_common in H. apply Counter_within in H. lia.
Qed.

Lemma filtered_words_length ws :
  (length (filtered_words ws) <= length ws)%nat.
Proof. apply length_filter. Qed.

(** ** The scores *)

Lemma keywords_need_words ws kw rest :
  keywords_of ws = kw :: rest -> (2 <= length ws)%nat.
Proof.
  intros H.
  assert (Hk : kw ∈ keywords_of ws) by (rewrite H; left).
  apply keyword_occurs_twice in Hk.
  pose proof (occurrences_le_length kw (filtered_words ws)).
  pose proof (filtered_words_length ws). lia.
Qed.

Ltac content_leaf :=
  do 3 eexists; cbn [mbind result_bind];
  split; [reflexivity|];
  repeat (split; [reflexivity|]);
  split; [lia|];
  intros ?; split; [cbn; tauto || lia | lia].

Lemma analyze_content_ok db self :
  let ws := words_of db (content self) in
  exists ca c issues,
    analyze_content db self
    = Ok ({| file_path := file_path self; content := content self;
             title := title self; word_count := Z.of_nat (length ws);
             keywords := keywords_of ws;
             analysis_results := analysis_results self |}, ca)
    /\ ca !! "score" = Some (VInt c)
    /\ ca !! "word_count" = Some (VInt (Z.of_nat (length ws)))
    /\ ca !! "keywords" = Some (VList (take 5 (keywords_of ws)))
    /\ ca !! "issues" = Some (VList issues)
    /\ 0 <= c <= 100
    /\ (Z.of_nat (length ws) < 300 ->
        In (u "Content too short (< 300 words)") issues /\ c <= 60).
Proof.
  intros ws. unfold analyze_content. fold ws. cbn [word_count keywords content].
  pose proof (keywords_need_words ws) as Hws.
  destruct (keywords_of ws) as [|kw rest].
  - destruct (Z.of_nat (length ws) <? 300) eqn:E1;
      [|destruct (Z.of_nat (length ws) >? 2000) eqn:E2]; content_leaf.
  - specialize (Hws kw rest eq_refl).
    unfold py_truediv.
    destruct (Z.of_nat (length ws) =? 0) eqn:E0; [lia|].
    cbn [mbind result_bind].
    destruct (SFltb _ half);
      [|destruct (SFltb (float_of_int 3) _)];
      (destruct (Z.of_nat (length ws) <? 300) eqn:E1;
       [|destruct (Z.of_nat (length ws) >? 2000) eqn:E2]); content_leaf.
Qed.

Lemma analyze_title_score db self :
  exists t, analyze_title db self !! "score" = Some (VInt t) /\ 0 <= t <= 100.
Proof.
  unfold analyze_title. destruct (title self) as [|x l].
  - exists 0. split; [reflexivity|lia].
  - set (len := Z.of_nat (length (x :: l))).
    set (words := Z.of_nat (count_fields false (lower db (x :: l)))).
    destruct (len <? 30); [|destruct (len >? 60)];
      destruct (words <? 3); eexists; (split; [reflexivity|lia]).
Qed.

Lemma analyze_structure_score self :
  exists s, analyze_structure self !! "score" = Some (VInt s) /\ 0 <= s <= 100.
Proof.
  unfold analyze_structure.
  destruct (Z.of_nat (length (findall re_subheading (content self))) <? 2);
    destruct (Z.of_nat (length (findall re_bullet (content self))) <? 1);
    destruct (Z.of_nat (length (findall_group re_link (content self))) <? 1);
    eexists; (split; [reflexivity|lia]).
Qed.

Lemma score_of_lookup (results d : gmap string pyval) which z :
  results !! which = Some (VDict d) -> d !! "score" = Some (VInt z) ->
  score_of results which = Ok z.
Proof.
  intros H1 H2. unfold score_of, get_dict, get_int, getitem.
  rewrite H1. cbn. rewrite H2. reflexivity.
Qed.

(** The mean of three scores, rounded: the float arithmetic gives the
    decimal rounding of the exact third. *)
Lemma mean_of_scores total :
  0 <= total <= 300 ->
  exists mean o,
    py_truediv total 3 = Ok mean
    /\ py_round1 mean = VTenths o
    /\ o = div_half_even (10 * total) 3
    /\ 0 <= o <= 1000.
Proof.
  intros Ht.
  assert (Hall : forallb mean_check (map Z.of_nat (seq 0 301)) = true)
    by (vm_compute; reflexivity).
  rewrite forallb_forall in Hall.
  specialize (Hall total).
  assert (Hin : In total (map Z.of_nat (seq 0 301))).
  { apply in_map_iff. exists (Z.to_nat total). split; [lia|].
    apply in_seq. lia. }
  specialize (Hall Hin). unfold mean_check in Hall.
  destruct (py_truediv total 3) as [mean|] eqn:Hm; [|discriminate].
  destruct (py_round1 mean) as [| |o| | |] eqn:Hr; try discriminate.
  exists mean, o. split; [reflexivity|]. split; [exact Hr|].
  apply andb_prop in Hall as [Hall H3]. apply andb_prop in Hall as [H1 H2].
  lia.
Qed.

(** C2: whatever was loaded, the analysis succeeds; the title, content and
    structure scores are integers between 0 and 100; the overall score is
    [round((t + c + s) / 3, 1)] of exactly these three, stored as rounded;
    it is the decimal rounding of the exact mean and lies between 0 and
    100 (between 0 and 1000 tenths). *)
Theorem scores_in_range db (self : BlogSEOAnalyzer) :
  exists self' ta ca sa t c s mean o,
    analyze db self = Ok self'
    /\ analysis_results self' !! "title_analysis" = Some (VDict ta)
    /\ analysis_results self' !! "content_analysis" = Some (VDict ca)
    /\ analysis_results self' !! "structure_analysis" = Some (VDict sa)
    /\ ta !! "score" = Some (VInt t)
    /\ ca !! "score" = Some (VInt c)
    /\ sa !! "score" = Some (VInt s)
    /\ 0 <= t <= 100 /\ 0 <= c <= 100 /\ 0 <= s <= 100
    /\ py_truediv (t + c + s) 3 = Ok mean
    /\ analysis_results self' !! "overall_score" = Some (py_round1 mean)
    /\ py_round1 mean = VTenths o
    /\ o = div_half_even (10 * (t + c + s)) 3
    /\ 0 <= o <= 1000.
Proof.
  destruct (analyze_title_score db self) as (t & Ht & Htr).
  destruct (analyze_content_ok db self) as (ca & c & issues & Hca & Hc & _ & _ & _ & Hcr & _).
  set (self1 := {| file_path := file_path self |}) in Hca.
  destruct (analyze_structure_score self1) as (s & Hs & Hsr).
  destruct (mean_of_scores (t + c + s)) as (mean & o & Hmean & Hround & Ho & Hor);
    [lia|].
  unfold analyze. rewrite Hca. cbn [mbind result_bind].
  erewrite (score_of_lookup _ _ "title_analysis" t); [|reflexivity|exact Ht].
  erewrite (score_of_lookup _ _ "content_analysis" c); [|reflexivity|exact Hc].
  erewrite (score_of_lookup _ _ "structure_analysis" s); [|reflexivity|exact Hs].
  cbn [mbind result_bind]. rewrite Hmean. cbn [mbind result_bind].
  eexists _, _, _, _, t, c, s, mean, o.
  split; [reflexivity|]. cbn [analysis_results].
  repeat (split; [reflexivity || assumption|]). assumption.
Qed.

(** C9: when the content analysis finds a keyword, the first keyword
    occurs at least twice among the filtered tokens, so there are at least
    two words; the quotient of the density is therefore defined, and the
    content analysis returns with these keywords and this word count. *)
Theorem keyword_density_defined db (self : BlogSEOAnalyzer)
    (primary_keyword : pystr) (others : list pystr) :
  let ws := words_of db (content self) in
  keywords_of ws = primary_keyword :: others ->
  (2 <= occurrences primary_keyword (filtered_words ws))%nat
  /\ 2 <= Z.of_nat (length ws)
  /\ (exists ratio,
        py_truediv
          (Z.of_nat (count_sub primary_keyword 0 (lower db (content self))))
          (Z.of_nat (length ws)) = Ok ratio)
  /\ (exists self' ca,
        analyze_content db self = Ok (self', ca)
        /\ keywords self' = primary_keyword :: others
        /\ word_count self' = Z.of_nat (length ws)).
Proof.
  intros ws H.
  assert (Hk : primary_keyword ∈ keywords_of ws) by (rewrite H; left).
  pose proof (keyword_occurs_twice _ _ Hk) as H2.
  pose proof (keywords_need_words _ _ _ H) as Hlen.
  split; [exact H2|]. split; [lia|]. split.
  - unfold py_truediv.
    destruct (Z.of_nat (length ws) =? 0) eqn:E; [lia|]. eexists; reflexivity.
  - destruct (analyze_content_ok db self) as (ca & c & issues & Hca & _).
    fold ws in Hca. rewrite H in Hca.
    eexists _, ca. split; [exact Hca|]. split; reflexivity.
Qed.

Lemma keyword_density_defined_witness :
  (2 <= occurrences (u "cat")
          (filtered_words (words_of ascii_tables (u "cat cat"))))%nat.
Proof.
  assert (H : keywords_of (words_of ascii_tables (content (loaded [] (u "cat cat"))))
              = [u "cat"]) by (vm_compute; reflexivity).
  exact (proj1 (keyword_density_defined ascii_tables (loaded [] (u "cat cat"))
                  (u "cat") [] H)).
Defined.

(** ** Whitespace: stripping and collapsing *)

Lemma lstrip_app a b :
  lstrip (a ++ b) = if blank a then lstrip b else lstrip a ++ b.
Proof.
  induction a as [|c a IH]; simpl; [reflexivity|].
  destruct (is_space c); simpl; [exact IH|reflexivity].
Qed.

Lemma blank_app a b : blank (a ++ b) = blank a && blank b.
Proof. apply forallb_app. Qed.

Lemma blank_rev s : blank (rev s) = blank s.
Proof.
  induction s as [|c s IH]; simpl; [reflexivity|].
  rewrite blank_app, IH. simpl. rewrite andb_true_r. apply andb_comm.
Qed.

Lemma lstrip_blank s : blank s = true -> lstrip s = [].
Proof.
  induction s as [|c s IH]; simpl; [reflexivity|].
  destruct (is_space c); simpl; [exact IH|discriminate].
Qed.

Lemma rstrip_blank s : blank s = true -> rstrip s = [].
Proof.
  intros H. unfold rstrip. rewrite lstrip_blank; [reflexivity|].
  rewrite blank_rev. exact H.
Qed.

Lemma rstrip_cons c s :
  rstrip (c :: s) = if is_space c && blank s then [] else c :: rstrip s.
Proof.
  unfold rstrip. simpl rev. rewrite lstrip_app, blank_rev.
  destruct (blank s) eqn:Hb.
  - rewrite (lstrip_blank (rev s)) by (rewrite blank_rev; exact Hb).
    simpl. destruct (is_space c); reflexivity.
  - rewrite andb_false_r, rev_app_distr. reflexivity.
Qed.

Lemma blank_collapse_runs b s : blank (collapse_runs b s) = blank s.
Proof.
  revert b. induction s as [|c s IH]; intros b; simpl; [reflexivity|].
  destruct (is_space c) eqn:Hc; simpl.
  - destruct b; simpl; rewrite IH; reflexivity.
  - rewrite Hc. reflexivity.
Qed.

Lemma lstrip_collapse_runs b s :
  lstrip (collapse_runs b s) = collapse_runs false (lstrip s).
Proof.
  revert b. induction s as [|c s IH]; intros b; simpl; [reflexivity|].
  destruct (is_space c) eqn:Hc.
  - destruct b; simpl; apply IH.
  - simpl. rewrite Hc. reflexivity.
Qed.

Lemma rstrip_collapse_runs b s :
  rstrip (collapse_runs b s) = collapse_runs b (rstrip s).
Proof.
  revert b. induction s as [|c s IH]; intros b; [reflexivity|].
  rewrite (rstrip_cons c s). simpl collapse_runs at 1.
  destruct (is_space c) eqn:Hc; simpl andb.
  - destruct (blank s) eqn:Hb.
    + simpl. apply rstrip_blank.
      destruct b; simpl; rewrite blank_collapse_runs; exact Hb.
    + simpl. rewrite Hc. destruct b.
      * apply IH.
      * rewrite rstrip_cons, blank_collapse_runs, Hb, andb_false_r.
        f_equal. apply IH.
  - rewrite rstrip_cons, Hc. simpl. rewrite Hc. f_equal. apply IH.
Qed.

(** Collapsing the runs commutes with stripping. *)
Lemma collapse_runs_strip s :
  collapse_runs false (strip s) = strip (collapse_runs false s).
Proof.
  unfold strip.
  rewrite <- rstrip_collapse_runs, <- (lstrip_collapse_runs false). reflexivity.
Qed.

(** The pattern [\s+] at a position: the whole run of whitespace there. *)
Lemma rep_spaces lo prev s :
  rep false true is_space (rmatch []) lo None prev s
  = if (lo <=? ws_run s)%nat then Some (ws_run s, []) else None.
Proof.
  revert lo prev. induction s as [|c s IH]; intros lo prev.
  - destruct lo; reflexivity.
  - rewrite rep_eq. cbn zeta. simpl ws_run.
    destruct (is_space c) eqn:Hc; simpl andb; cbv iota.
    + rewrite IH. simpl option_map.
      destruct lo as [|lo]; simpl pred.
      * simpl. reflexivity.
      * change (S lo <=? S (ws_run s))%nat with (lo <=? ws_run s)%nat.
        destruct (lo <=? ws_run s)%nat; reflexivity.
    + destruct lo; reflexivity.
Qed.

Lemma rmatch_spaces prev s :
  rmatch re_spaces prev s
  = match ws_run s with O => None | S n => Some (S n, []) end.
Proof.
  unfold re_spaces, plus. simpl rmatch. rewrite rep_spaces.
  destruct (ws_run s); reflexivity.
Qed.

Lemma sub_spaces_collapse s :
  (forall prev, sub_go re_spaces (Const [SPACE]) O prev s = collapse_runs false s)
  /\ (forall prev, sub_go re_spaces (Const [SPACE]) (ws_run s) prev s
                   = collapse_runs true s).
Proof.
  induction s as [|c s [IH0 IH1]].
  - split; intros prev; reflexivity.
  - assert (H0 : forall prev, sub_go re_spaces (Const [SPACE]) O prev (c :: s)
                              = collapse_runs false (c :: s)).
    { intros prev. cbn [sub_go]. rewrite rmatch_spaces. simpl.
      destruct (is_space c); simpl; [rewrite IH1|rewrite IH0]; reflexivity. }
    split; [exact H0|]. intros prev.
    simpl ws_run. simpl collapse_runs.
    destruct (is_space c) eqn:Hc.
    + cbn [sub_go]. apply IH1.
    + specialize (H0 prev). simpl collapse_runs in H0. rewrite Hc in H0.
      exact H0.
Qed.

(** The text that [generate_meta_description] works on is the content with
    its runs of whitespace collapsed and its ends trimmed. *)
Lemma collapsed_spec text : collapsed text = collapsed_and_trimmed text.
Proof.
  unfold collapsed, collapsed_and_trimmed, sub.
  rewrite (proj1 (sub_spaces_collapse _)). apply collapse_runs_strip.
Qed.

(** C6: without a title the meta description is the fixed sentence; with a
    title it is the content with whitespace runs collapsed to single
    spaces and the ends trimmed when that has at most 150 code points, and
    otherwise its first 147 code points followed by three dots, 150 code
    points in all. *)
Theorem meta_description_shape (self : BlogSEOAnalyzer) :
  let c := collapsed_and_trimmed (content self) in
  match title self with
  | [] =>
      generate_meta_description self
      = u "No title available for meta description generation"
  | _ :: _ =>
      ((length c <= 150)%nat /\ generate_meta_description self = c)
      \/ ((150 < length c)%nat
          /\ generate_meta_description self = take 147 c ++ u "..."
          /\ length (generate_meta_description self) = 150%nat)
  end.
Proof.
  intros c. unfold generate_meta_description.
  destruct (title self) as [|x t]; [reflexivity|].
  rewrite collapsed_spec. fold c.
  destruct (150 <? length c)%nat eqn:E.
  - right. apply Nat.ltb_lt in E. split; [exact E|]. split; [reflexivity|].
    rewrite length_app, length_take.
    change (length (u "...")) with 3%nat. lia.
  - left. apply Nat.ltb_ge in E. split; [exact E|reflexivity].
Qed.

(** ** Cleaning plain text *)

Lemma bump_is_Some cap c r : is_Some (bump cap c r) <-> is_Some r.
Proof.
  destruct r as [[n g]|]; simpl; split; intros [x H]; eauto; discriminate.
Qed.

Lemma rep_extensible cap greedy cls k lo hi :
  extensible k -> extensible (rep cap greedy cls k lo hi).
Proof.
  intros Hk prev s t. revert lo hi prev.
  induction s as [|c s IH]; intros lo hi prev.
  - rewrite (rep_eq _ _ _ _ _ _ _ []). cbn zeta.
    assert (Hstop : is_Some (match lo with O => k prev [] | S _ => None end)
                    -> is_Some (rep cap greedy cls k lo hi prev ([] ++ t))).
    { destruct lo; [|intros [x Hx]; discriminate].
      intros H. apply (Hk prev [] t) in H. simpl in *.
      rewrite rep_eq. cbn zeta.
      destruct greedy.
      - destruct (match t with [] => None | _ => _ end); [eauto|exact H].
      - destruct (k prev t); [eauto|]. destruct H; discriminate. }
    destruct greedy.
    + exact Hstop.
    + destruct (match lo with O => _ | S _ => _ end) eqn:E.
      * intros _. apply Hstop. eauto.
      * intros [x Hx]; discriminate.
  - rewrite (rep_eq _ _ _ _ _ _ _ (c :: s)).
    rewrite (rep_eq _ _ _ _ _ _ _ ((c :: s) ++ t)). cbn zeta.
    simpl app.
    assert (Hmore : is_Some (if cls c && may_repeat hi
                             then bump cap c (rep cap greedy cls k (pred lo) (option_map pred hi) (Some c) s)
                             else None)
                    -> is_Some (if cls c && may_repeat hi
                                then bump cap c (rep cap greedy cls k (pred lo) (option_map pred hi) (Some c) (s ++ t))
                                else None)).
    { destruct (cls c && may_repeat hi); [|intros H; exact H].
      rewrite !bump_is_Some. apply IH. }
    assert (Hstop : is_Some (match lo with O => k prev (c :: s) | S _ => None end)
                    -> is_Some (match lo with O => k prev (c :: s ++ t) | S _ => None end)).
    { destruct lo; [apply (Hk prev (c :: s) t)|intros H; exact H]. }
    destruct greedy.
    + destruct (if cls c && may_repeat hi then bump cap c (rep cap true cls k (pred lo) (option_map pred hi) (Some c) s) else None) eqn:E1.
      * intros _. destruct Hmore as [x Hx]; [eauto|]. rewrite Hx. eauto.
      * intros H. apply Hstop in H.
        destruct (if cls c && may_repeat hi then bump cap c (rep cap true cls k (pred lo) (option_map pred hi) (Some c) (s ++ t)) else None); [eauto|exact H].
    + destruct (match lo with O => k prev (c :: s) | S _ => None end) eqn:E1.
      * intros _. destruct Hstop as [x Hx]; [eauto|]. rewrite Hx. eauto.
      * intros H. apply Hmore in H.
        destruct (match lo with O => k prev (c :: s ++ t) | S _ => None end); [eauto|exact H].
Qed.

Lemma rep_blind cap greedy cls k lo hi :
  blind k -> blind (rep cap greedy cls k lo hi).
Proof.
  intros Hk prev prev' s. rewrite !(rep_eq _ _ _ _ _ _ _ s). cbn zeta.
  destruct lo; [rewrite (Hk prev prev')|]; reflexivity.
Qed.

Lemma rmatch_context_free p :
  context_free p = true -> extensible (rmatch p) /\ blind (rmatch p).
Proof.
  induction p as [|a p IH]; simpl.
  - intros _. split; [intros prev s t _; eauto|intros prev prev' s; reflexivity].
  - destruct a as [| |isw|cls|cap greedy cls lo hi]; try discriminate;
      intros [Hx Hb]%IH.
    + split.
      * intros prev [|c s] t; simpl; [intros [x H]; discriminate|].
        destruct (cls c); [|intros H; exact H].
        rewrite !bump_is_Some. apply Hx.
      * intros prev prev' s. reflexivity.
    + split; [apply rep_extensible, Hx|apply rep_blind, Hb].
Qed.

Lemma search_from_None_inv p prev c s :
  search_from p prev (c :: s) = None ->
  rmatch p prev (c :: s) = None /\ search_from p (Some c) s = None.
Proof.
  simpl. destruct (rmatch p prev (c :: s)); [discriminate|].
  destruct (search_from p (Some c) s) as [[i r]|]; [discriminate|].
  split; reflexivity.
Qed.

Lemma search_from_None_head p prev s :
  search_from p prev s = None -> rmatch p prev s = None.
Proof.
  destruct s as [|c s]; [|intros H; apply (search_from_None_inv _ _ _ _ H)].
  simpl. destruct (rmatch p prev []); [discriminate|reflexivity].
Qed.

Lemma search_from_None_intro p prev s :
  rmatch p prev s = None ->
  match s with [] => True | c :: s' => search_from p (Some c) s' = None end ->
  search_from p prev s = None.
Proof.
  intros H1 H2. destruct s as [|c s]; simpl; rewrite H1; [reflexivity|].
  rewrite H2. reflexivity.
Qed.

(** A pattern absent from a text is absent from what remains when a suffix
    is dropped, if it does not look ahead. *)
Lemma search_from_app_r p prev s t :
  extensible (rmatch p) ->
  search_from p prev (s ++ t) = None -> search_from p prev s = None.
Proof.
  intros Hx. revert prev. induction s as [|c s IH]; intros prev H.
  - apply search_from_None_head in H.
    apply search_from_None_intro; [|exact I].
    destruct (rmatch p prev []) eqn:E; [|reflexivity].
    destruct (Hx prev [] t) as [x Hsome]; [eauto|].
    simpl app in *. congruence.
  - simpl app in H. apply search_from_None_inv in H as [H1 H2].
    apply search_from_None_intro; [|apply IH, H2].
    destruct (rmatch p prev (c :: s)) eqn:E; [|reflexivity].
    destruct (Hx prev (c :: s) t) as [x Hsome]; [eauto|].
    simpl app in *. congruence.
Qed.

(** Absent after a prefix is dropped: everywhere but at the new start. *)
Lemma search_from_app_l_tail p prev a c s :
  search_from p prev (a ++ c :: s) = None -> search_from p (Some c) s = None.
Proof.
  revert prev. induction a as [|x a IH]; intros prev H.
  - apply (search_from_None_inv _ _ _ _ H).
  - simpl app in H. apply search_from_None_inv in H as [_ H]. apply (IH _ H).
Qed.

Lemma search_from_app_l p prev prev' a s :
  blind (rmatch p) ->
  search_from p prev (a ++ s) = None -> search_from p prev' s = None.
Proof.
  intros Hb H.
  assert (H0 : exists q, search_from p q s = None).
  { clear prev'. revert prev H. induction a as [|x a IH]; intros prev H; [eauto|].
    simpl app in H. apply search_from_None_inv in H as [_ H]. apply (IH _ H). }
  destruct H0 as [q H0].
  apply search_from_None_intro.
  - rewrite (Hb prev' q). apply search_from_None_head, H0.
  - destruct s as [|c s]; [exact I|]. apply (search_from_None_inv _ _ _ _ H0).
Qed.

Lemma lstrip_decompose s : exists a, s = a ++ lstrip s /\ blank a = true.
Proof.
  induction s as [|c s (a & IH & Ha)]; [exists []; split; reflexivity|].
  simpl. destruct (is_space c) eqn:Hc.
  - exists (c :: a). simpl. rewrite Hc, Ha, <- IH. split; reflexivity.
  - exists []. split; reflexivity.
Qed.

Lemma rstrip_decompose s : exists b, s = rstrip s ++ b.
Proof.
  destruct (lstrip_decompose (rev s)) as (a & H & _).
  exists (rev a). unfold rstrip. rewrite <- rev_app_distr, <- H.
  symmetry. apply rev_involutive.
Qed.

Lemma strip_decompose s :
  exists a b, s = a ++ strip s ++ b /\ blank a = true.
Proof.
  destruct (lstrip_decompose s) as (a & Ha & Hblank).
  destruct (rstrip_decompose (lstrip s)) as (b & Hb).
  exists a, b. split; [|exact Hblank].
  unfold strip. rewrite <- Hb. exact Ha.
Qed.

Lemma absent_spec p text : absent p text = true <-> search p text = None.
Proof.
  unfold absent. destruct (search p text); split; congruence.
Qed.

(** Stripping a text brings no match of a context-free pattern. *)
Lemma absent_strip_context_free p text :
  context_free p = true -> absent p text = true -> absent p (strip text) = true.
Proof.
  intros [Hx Hb]%rmatch_context_free. rewrite !absent_spec. unfold search.
  destruct (strip_decompose text) as (a & b & Hd & _).
  intros H. rewrite Hd in H.
  apply (search_from_app_l _ _ None) in H; [|exact Hb].
  apply (search_from_app_r _ _ _ _ Hx H).
Qed.

(** The bullet pattern: [^], then a context-free rest that starts with
    optional whitespace. *)
Lemma rep_star_after_blank k prev prev' a s :
  blind k -> blank a = true ->
  is_Some (rep false true is_space k 0 None prev' s) ->
  is_Some (rep false true is_space k 0 None prev (a ++ s)).
Proof.
  intros Hk. revert prev. induction a as [|c a IH]; intros prev Ha H.
  - simpl. rewrite (rep_blind _ _ _ _ _ _ Hk prev prev'). exact H.
  - simpl in Ha. apply andb_prop in Ha as [Hc Ha].
    simpl app. rewrite rep_eq. cbn zeta. rewrite Hc. simpl andb. cbv iota.
    destruct (IH (Some c) Ha H) as [[n g] Hr].
    simpl pred. simpl option_map. rewrite Hr. simpl. eauto.
Qed.

Lemma rmatch_bullet prev s :
  rmatch re_bullet prev s
  = if at_bol prev
    then rep false true is_space
           (rmatch [Chr (one_of [MINUS; STAR; PLUS]); plus is_space])
           0 None prev s
    else None.
Proof. reflexivity. Qed.

Lemma bullet_rest_context_free :
  extensible (rmatch [Chr (one_of [MINUS; STAR; PLUS]); plus is_space])
  /\ blind (rmatch [Chr (one_of [MINUS; STAR; PLUS]); plus is_space]).
Proof. apply rmatch_context_free. reflexivity. Qed.

Lemma bullet_extensible : extensible (rmatch re_bullet).
Proof.
  intros prev s t. rewrite !rmatch_bullet.
  destruct (at_bol prev); [|intros H; exact H].
  apply rep_extensible, bullet_rest_context_free.
Qed.

Lemma absent_strip_bullet text :
  absent re_bullet text = true -> absent re_bullet (strip text) = true.
Proof.
  rewrite !absent_spec. unfold search.
  destruct (strip_decompose text) as (a & b & Hd & Ha).
  intros H. rewrite Hd, app_assoc in H.
  apply (search_from_app_r _ _ _ _ bullet_extensible) in H.
  apply search_from_None_intro.
  - apply search_from_None_head in H.
    destruct (rmatch re_bullet None (strip text)) eqn:E; [|reflexivity].
    exfalso. rewrite rmatch_bullet in E, H. simpl at_bol in E, H. cbv iota in E, H.
    destruct (rep_star_after_blank
                (rmatch [Chr (one_of [MINUS; STAR; PLUS]); plus is_space])
                None None a (strip text)) as [x Hx].
    + apply bullet_rest_context_free.
    + exact Ha.
    + rewrite E. eauto.
    + congruence.
  - destruct (strip text) as [|c s]; [exact I|].
    apply (search_from_app_l_tail _ _ _ _ _ H).
Qed.

Lemma lstrip_idempotent s : lstrip (lstrip s) = lstrip s.
Proof.
  induction s as [|c s IH]; simpl; [reflexivity|].
  destruct (is_space c) eqn:Hc; [exact IH|]. simpl. rewrite Hc. reflexivity.
Qed.

Lemma rstrip_idempotent s : rstrip (rstrip s) = rstrip s.
Proof.
  unfold rstrip. rewrite rev_involutive, lstrip_idempotent. reflexivity.
Qed.

Lemma lstrip_rstrip_lstrip s : lstrip (rstrip (lstrip s)) = rstrip (lstrip s).
Proof.
  induction s as [|c s IH]; [reflexivity|].
  change (lstrip (c :: s)) with (if is_space c then lstrip s else c :: s).
  destruct (is_space c) eqn:Hc; [exact IH|].
  rewrite rstrip_cons, Hc. simpl. rewrite Hc. reflexivity.
Qed.

Lemma strip_idempotent s : strip (strip s) = strip s.
Proof.
  unfold strip. rewrite lstrip_rstrip_lstrip. apply rstrip_idempotent.
Qed.

(** On a text without Markdown syntax the cleaner only strips. *)
Lemma clean_plain text :
  no_markdown text = true -> _clean_markdown text = strip text.
Proof.
  unfold no_markdown, cleaning_steps. simpl forallb.
  rewrite !andb_true_iff, !absent_spec.
  intros (H1 & H2 & H3 & H4 & H5 & H6 & H7 & H8 & _).
  unfold _clean_markdown.
  rewrite (sub_no_match _ _ _ H1), (sub_no_match _ _ _ H2),
    (sub_no_match _ _ _ H3), (sub_no_match _ _ _ H4),
    (sub_no_match _ _ _ H5), (sub_no_match _ _ _ H6),
    (sub_no_match _ _ _ H7), (sub_no_match _ _ _ H8).
  reflexivity.
Qed.

(** Stripping can only bring a heading line. *)
Lemma no_markdown_strip text :
  no_markdown text = true -> absent re_header (strip text) = true ->
  no_markdown (strip text) = true.
Proof.
  unfold no_markdown, cleaning_steps. simpl forallb.
  rewrite !andb_true_iff.
  intros (_ & H2 & H3 & H4 & H5 & H6 & H7 & H8 & _) H1.
  repeat split; try assumption;
    first [ apply absent_strip_bullet; assumption
          | apply absent_strip_context_free; [reflexivity|assumption] ].
Qed.

(** C8, as stated, fails for the idempotence: [ # A] has no Markdown
    syntax for the cleaner (the number sign is not at the start of the
    line), cleaning strips it to [# A], which is a heading line, and
    cleaning that gives the empty text. *)
Lemma indented_heading_not_idempotent :
  no_markdown (u " # A") = true
  /\ _clean_markdown (u " # A") = u "# A"
  /\ _clean_markdown (_clean_markdown (u " # A")) = []
  /\ _clean_markdown (_clean_markdown (u " # A")) <> _clean_markdown (u " # A").
Proof.
  repeat split; try (vm_compute; reflexivity).
  vm_compute. discriminate.
Qed.

(** C8, amended: on a text in which none of the cleaner's patterns has a
    match, cleaning returns the text stripped of leading and trailing
    whitespace; cleaning twice gives the same again provided the stripped
    text has no heading line, which is all that stripping can bring. *)
Theorem clean_plain_text (text : pystr) :
  no_markdown text = true ->
  _clean_markdown text = strip text
  /\ (absent re_header (strip text) = true ->
      no_markdown (_clean_markdown text) = true
      /\ _clean_markdown (_clean_markdown text) = _clean_markdown text).
Proof.
  intros H. pose proof (clean_plain text H) as Hc.
  split; [exact Hc|]. intros Hh.
  pose proof (no_markdown_strip text H Hh) as Hs.
  rewrite Hc. split; [exact Hs|].
  rewrite (clean_plain _ Hs). apply strip_idempotent.
Qed.

Lemma clean_plain_text_witness :
  _clean_markdown (u "  plain words, no syntax ") = u "plain words, no syntax"
  /\ _clean_markdown (_clean_markdown (u "  plain words, no syntax "))
     = _clean_markdown (u "  plain words, no syntax ").
Proof.
  assert (H : no_markdown (u "  plain words, no syntax ") = true)
    by (vm_compute; reflexivity).
  assert (Hh : absent re_header (strip (u "  plain words, no syntax ")) = true)
    by (vm_compute; reflexivity).
  destruct (clean_plain_text (u "  plain words, no syntax ") H) as [H1 H2].
  split.
  - rewrite H1. vm_compute. reflexivity.
  - exact (proj2 (H2 Hh)).
Defined.

(** ** Headings *)

Lemma rep_needs_one cap greedy cls k lo hi prev s r :
  rep cap greedy cls k (S lo) hi prev s = Some r ->
  exists c s', s = c :: s' /\ cls c = true.
Proof.
  rewrite rep_eq. cbn zeta. destruct s as [|c s].
  - destruct greedy; discriminate.
  - destruct (cls c) eqn:Hc; [intros _; eauto|]. destruct greedy; simpl; discriminate.
Qed.

(** [.*$] matches at every position. *)
Lemma rest_of_line_matches prev s :
  is_Some (rep false true dot (rmatch [Eol]) 0 None prev s).
Proof.
  revert prev. induction s as [|c s IH]; intros prev.
  - rewrite rep_eq. simpl. eauto.
  - rewrite rep_eq. cbn zeta. simpl pred. simpl option_map.
    destruct (dot c) eqn:Hd; simpl andb; cbv iota.
    + destruct (IH (Some c)) as [[n g] H]. rewrite H. simpl. eauto.
    + simpl. unfold dot in Hd. apply negb_false_iff in Hd. rewrite Hd. eauto.
Qed.

(** [\s+.*$] matches wherever whitespace starts, [\s*.*$] everywhere. *)
Lemma spaces_and_line_match lo prev s :
  (lo <= 1)%nat ->
  (lo = O \/ exists c s', s = c :: s' /\ is_space c = true) ->
  is_Some (rep false true is_space (rmatch [star dot; Eol]) lo None prev s).
Proof.
  revert lo prev. induction s as [|c s IH]; intros lo prev Hlo H.
  - destruct H as [->|(c & s' & [=] & _)].
    rewrite rep_eq. simpl. eauto.
  - rewrite rep_eq. cbn zeta. simpl option_map.
    destruct (is_space c) eqn:Hc; simpl andb; cbv iota.
    + destruct (IH (pred lo) (Some c)) as [[n g] Hr]; [lia|left; lia|].
      rewrite Hr. simpl. eauto.
    + destruct H as [->|(c' & s' & [= <- <-] & Hc')]; [|congruence].
      apply (rest_of_line_matches prev (c :: s)).
Qed.

Lemma hash_not_space : is_space HASH = false.
Proof. reflexivity. Qed.

Lemma hash_run_cons c s :
  hash_run (c :: s)
  = if (HASH =? c)%N then option_map S (hash_run s)
    else if is_space c then Some O else None.
Proof. reflexivity. Qed.

(** A repetition of number signs followed by something that needs
    whitespace: it takes the whole run. *)
Lemma rep_hashes_run k lo hi prev s r :
  (forall q x y, k q x = Some y -> exists c x', x = c :: x' /\ is_space c = true) ->
  rep false true (N.eqb HASH) k lo (Some hi) prev s = Some r ->
  exists j, hash_run s = Some j /\ (lo <= j <= hi)%nat.
Proof.
  intros Hk. revert lo hi prev r.
  induction s as [|c s IH]; intros lo hi prev r; rewrite rep_eq; cbn zeta.
  - destruct lo; [|discriminate]. intros H.
    destruct (Hk _ _ _ H) as (c & x' & [=] & _).
  - rewrite hash_run_cons. destruct (HASH =? c)%N eqn:Hc; simpl andb; cbv iota.
    + apply N.eqb_eq in Hc. subst c.
      assert (Hstop : match lo with O => k prev (HASH :: s) | S _ => None end = None).
      { destruct lo; [|reflexivity].
        destruct (k prev (HASH :: s)) eqn:E; [|reflexivity].
        destruct (Hk _ _ _ E) as (c & x' & [= <- <-] & Hsp).
        rewrite hash_not_space in Hsp. discriminate. }
      rewrite Hstop.
      destruct hi as [|hi]; simpl may_repeat; cbv iota; [discriminate|].
      simpl option_map. change (Init.Nat.pred (S hi)) with hi.
      destruct (rep false true (N.eqb HASH) k (pred lo) (Some hi) (Some HASH) s)
        as [r'|] eqn:E; [|discriminate].
      intros _. destruct (IH _ _ _ _ E) as (j & -> & Hj).
      exists (S j). split; [reflexivity|lia].
    + destruct lo; [|discriminate]. intros H.
      destruct (Hk _ _ _ H) as (c' & x' & [= <- <-] & Hsp).
      rewrite Hsp. exists O. split; [reflexivity|lia].
Qed.

Lemma rep_hashes_header lo hi prev s j :
  hash_run s = Some j -> (lo <= j <= hi)%nat ->
  is_Some (rep false true (N.eqb HASH)
             (rmatch [plus is_space; star dot; Eol]) lo (Some hi) prev s).
Proof.
  revert lo hi prev j.
  induction s as [|c s IH]; intros lo hi prev j; [discriminate|].
  rewrite hash_run_cons, rep_eq. cbn zeta.
  destruct (HASH =? c)%N eqn:Hc; simpl andb; cbv iota.
  - destruct (hash_run s) as [j'|] eqn:Hr; [|discriminate].
    intros [= <-] Hj.
    destruct hi as [|hi]; [lia|]. simpl may_repeat; cbv iota.
    simpl option_map. change (Init.Nat.pred (S hi)) with hi.
    destruct (IH (pred lo) hi (Some c) j') as [[n g] H]; [reflexivity|lia|].
    rewrite H. simpl. eauto.
  - destruct (is_space c) eqn:Hsp; [|discriminate].
    intros [= <-] Hj. destruct lo; [|lia].
    apply (spaces_and_line_match 1 prev (c :: s)); [lia|right; eauto].
Qed.

Lemma rmatch_header prev s :
  rmatch re_header prev s
  = if at_bol prev
    then rep false true (N.eqb HASH)
           (rmatch [plus is_space; star dot; Eol]) 1 (Some 6%nat) prev s
    else None.
Proof. reflexivity. Qed.

Lemma rmatch_subheading prev s :
  rmatch re_subheading prev s
  = if at_bol prev
    then rep false true (N.eqb HASH)
           (rmatch [plus is_space; plus dot]) 2 (Some 6%nat) prev s
    else None.
Proof. reflexivity. Qed.

(** Where the sub-heading pattern matches, the header pattern does. *)
Lemma subheading_is_header prev s r :
  rmatch re_subheading prev s = Some r ->
  at_bol prev = true
  /\ (exists j, hash_run s = Some j /\ (2 <= j <= 6)%nat)
  /\ is_Some (rmatch re_header prev s).
Proof.
  rewrite rmatch_subheading, rmatch_header.
  destruct (at_bol prev); [|discriminate]. intros H.
  apply rep_hashes_run in H as (j & Hj & Hr).
  - split; [reflexivity|]. split; [eauto|].
    apply (rep_hashes_header _ _ _ _ j Hj). lia.
  - intros q x y Hy. apply (rep_needs_one _ _ _ _ _ _ _ _ _ Hy).
Qed.

Lemma header_match_span prev s n g :
  rmatch re_header prev s = Some (n, g) ->
  (1 <= n <= length s)%nat /\ at_eol (drop n s) = true.
Proof.
  intros H.
  pose proof (rmatch_within _ _ _ _ _ H) as [Hn _].
  pose proof (rmatch_ends_line
                [Bol; between (N.eqb HASH) 1 6; plus is_space; star dot]
                _ _ _ _ H) as He.
  split; [|exact He]. split; [|exact Hn].
  rewrite rmatch_header in H. destruct (at_bol prev); [|discriminate].
  rewrite rep_eq in H. cbn zeta in H.
  destruct s as [|c s]; [discriminate|].
  destruct (_ && _); [|discriminate].
  destruct (bump _ _ _) as [[n' g']|] eqn:E; [|discriminate].
  apply bump_Some in E as (n'' & g'' & _ & -> & _).
  injection H as <- _. lia.
Qed.

Lemma header_needs_hash prev s :
  hash_run s = None -> rmatch re_header prev s = None.
Proof.
  intros Hr. destruct (rmatch re_header prev s) as [r|] eqn:E; [|reflexivity].
  rewrite rmatch_header in E. destruct (at_bol prev); [|discriminate].
  apply rep_hashes_run in E as (j & Hj & _); [congruence|].
  intros q x y Hy. apply (rep_needs_one _ _ _ _ _ _ _ _ _ Hy).
Qed.

Lemma sub_go_skip p r k prev s :
  (k <= length s)%nat ->
  exists q, sub_go p r k prev s = sub_go p r O q (drop k s).
Proof.
  revert prev s. induction k as [|k IH]; intros prev s Hk.
  - exists prev. reflexivity.
  - destruct s as [|c s]; [simpl in Hk; lia|].
    simpl in Hk. destruct (IH (Some c) s) as [q Hq]; [lia|].
    exists q. simpl. exact Hq.
Qed.

(** Away from the start of a line the header substitution copies, so the
    run of number signs is the one of the text. *)
Lemma hash_run_sub_header prev s :
  at_bol prev = false ->
  hash_run (sub_go re_header (Const []) O prev s) = hash_run s.
Proof.
  revert prev. induction s as [|c s IH]; intros prev Hp.
  - simpl. rewrite Hp. reflexivity.
  - cbn [sub_go]. rewrite rmatch_header, Hp, !hash_run_cons.
    destruct (HASH =? c)%N eqn:Hc; [|reflexivity].
    rewrite IH; [reflexivity|].
    apply N.eqb_eq in Hc. subst c. reflexivity.
Qed.

Lemma subheading_needs_hash prev s :
  head s <> Some HASH -> rmatch re_subheading prev s = None.
Proof.
  intros H. destruct (rmatch re_subheading prev s) as [r|] eqn:E; [|reflexivity].
  apply subheading_is_header in E as (_ & (j & Hj & Hr) & _).
  destruct s as [|c s]; [discriminate|]. rewrite hash_run_cons in Hj.
  destruct (HASH =? c)%N eqn:Hc.
  - apply N.eqb_eq in Hc. subst c. contradiction H. reflexivity.
  - destruct (is_space c); [|discriminate]. injection Hj as <-. lia.
Qed.

(** After the header substitution no line matches the sub-heading
    pattern.  [prev] is the code point before the position in the text,
    [prev'] the one before it in the output; they differ only right after
    a removed line, where the text is at the end of a line. *)
Lemma no_subheading_after_sub_header n :
  forall s prev prev',
    (length s <= n)%nat ->
    prev = prev' \/ at_eol s = true ->
    finditer_go re_subheading O prev'
      (sub_go re_header (Const []) O prev s) = [].
Proof.
  induction n as [|n IH]; intros s prev prev' Hn Hinv.
  - destruct s; [|simpl in Hn; lia].
    cbn [sub_go]. rewrite (header_needs_hash prev []) by reflexivity.
    cbn [finditer_go].
    rewrite (subheading_needs_hash prev' []) by discriminate. reflexivity.
  - destruct s as [|c s].
    + cbn [sub_go]. rewrite (header_needs_hash prev []) by reflexivity.
      cbn [finditer_go].
      rewrite (subheading_needs_hash prev' []) by discriminate. reflexivity.
    + simpl in Hn. cbn [sub_go].
      destruct (rmatch re_header prev (c :: s)) as [[m g]|] eqn:E.
      * apply header_match_span in E as [[Hm1 Hm2] He].
        destruct m as [|m]; [lia|]. simpl expand. simpl app.
        simpl in Hm2. simpl drop in He.
        destruct (sub_go_skip re_header (Const []) m (Some c) s) as [q Hq]; [lia|].
        rewrite Hq. apply IH; [rewrite length_drop; lia|right; exact He].
      * cbn [finditer_go].
        assert (Hsub : rmatch re_subheading prev'
                         (c :: sub_go re_header (Const []) O (Some c) s) = None).
        { destruct Hinv as [<-|He].
          - destruct (rmatch re_subheading prev _) as [r|] eqn:E'; [|reflexivity].
            exfalso.
            apply subheading_is_header in E' as (Hb & (j & Hj & Hr) & _).
            rewrite hash_run_cons in Hj.
            destruct (HASH =? c)%N eqn:Hc.
            + rewrite hash_run_sub_header in Hj
                by (apply N.eqb_eq in Hc; subst c; reflexivity).
              rewrite rmatch_header, Hb in E.
              destruct (rep_hashes_header 1 6 prev (c :: s) j) as [x Hx];
                [rewrite hash_run_cons, Hc; exact Hj|lia|congruence].
            + destruct (is_space c); [|discriminate]. injection Hj as <-. lia.
          - apply subheading_needs_hash. simpl in He.
            apply N.eqb_eq in He. subst c. discriminate. }
        rewrite Hsub. apply IH; [lia|left; reflexivity].
Qed.

(** The heading-stripping step leaves no sub-heading line. *)
Lemma strip_headers_no_subheading text :
  findall re_subheading (strip_headers text) = [].
Proof.
  unfold findall, finditer, strip_headers, sub.
  rewrite (no_subheading_after_sub_header (length text)); [reflexivity|lia|].
  left; reflexivity.
Qed.

Lemma strip_subset x s : x ∈ strip s -> x ∈ s.
Proof.
  destruct (strip_decompose s) as (a & b & Hd & _). intros H.
  rewrite Hd. apply elem_of_app. right. apply elem_of_app. left. exact H.
Qed.

Lemma expand_subset r x :
  In r (map snd cleaning_steps) -> forall g, x ∈ expand r g -> x ∈ g.
Proof.
  simpl. intros H g.
  repeat (destruct H as [<-|H]; [simpl; solve [inversion 1 | auto]|]).
  contradiction.
Qed.

(** The substitutions after the first, and the final strip, only remove
    code points. *)
Lemma clean_subset x text :
  x ∈ _clean_markdown text -> x ∈ strip_headers text.
Proof.
  unfold _clean_markdown, strip_headers, sub. intros H%strip_subset.
  do 7 (apply sub_go_subset in H;
        [|apply expand_subset; simpl; tauto]).
  exact H.
Qed.

Lemma no_hash_no_subheading prev s :
  HASH ∉ s -> search_from re_subheading prev s = None.
Proof.
  revert prev. induction s as [|c s IH]; intros prev H.
  - apply search_from_None_intro; [|exact I].
    apply subheading_needs_hash. discriminate.
  - apply search_from_None_intro.
    + apply subheading_needs_hash. simpl. intros [= ->]. apply H. left.
    + apply IH. intros Hin. apply H. right. exact Hin.
Qed.

(** C3, as stated, fails: in [ ## A] the line does not start with the
    number signs, so the heading substitution leaves it; stripping then
    puts them at the start, and the structure analysis counts a heading. *)
Lemma indented_subheading_is_counted :
  content (loaded [] (u " ## A")) = u "## A"
  /\ analyze_structure (loaded [] (u " ## A")) !! "headings_count"
     = Some (VInt 1)
  /\ analyze_structure (loaded [] (u " ## A")) !! "headings_count"
     <> Some (VInt 0).
Proof.
  split; [vm_compute; reflexivity|]. split; [vm_compute; reflexivity|].
  vm_compute. discriminate.
Qed.

(** C3, amended: the heading-stripping step leaves no line that matches
    the sub-heading pattern, and when no number sign survives that step
    the structure analysis of the cleaned text reports no heading. *)
Theorem stripped_headings_not_counted (path text : pystr) :
  findall re_subheading (strip_headers text) = []
  /\ (HASH ∉ strip_headers text ->
      analyze_structure (loaded path text) !! "headings_count"
      = Some (VInt 0)).
Proof.
  split; [apply strip_headers_no_subheading|]. intros H.
  assert (Hc : HASH ∉ content (loaded path text)).
  { intros Hin. apply H, clean_subset, Hin. }
  unfold analyze_structure.
  assert (Hf : findall re_subheading (content (loaded path text)) = []).
  { unfold findall, finditer.
    rewrite finditer_go_no_match; [reflexivity|].
    apply no_hash_no_subheading, Hc. }
  rewrite Hf.
  destruct (Z.of_nat (length (findall re_bullet (content (loaded path text)))) <? 1);
    destruct (Z.of_nat (length (findall_group re_link (content (loaded path text)))) <? 1);
    reflexivity.
Qed.

Lemma stripped_headings_not_counted_witness :
  analyze_structure (loaded [] (u "## Setup" ++ [NL] ++ u "Run it."))
    !! "headings_count" = Some (VInt 0).
Proof.
  apply (stripped_headings_not_counted [] (u "## Setup" ++ [NL] ++ u "Run it.")).
  vm_compute. intros H. inversion H as [|? ? ? H1]; subst.
  repeat (inversion H1 as [|? ? ? H2]; subst; clear H1; rename H2 into H1).
Defined.

(** ** The report *)

(** The analyser after the analysis: it always succeeds, and the results
    hold the three analyses, the meta description and the overall score. *)
Lemma analyze_shape db self :
  let self1 :=
    {| file_path := file_path self; content := content self;
       title := title self;
       word_count := Z.of_nat (length (words_of db (content self)));
       keywords := keywords_of (words_of db (content self));
       analysis_results := analysis_results self |} in
  exists ca o,
    analyze db self
    = Ok {| file_path := file_path self; content := content self;
            title := title self;
            word_count := word_count self1;
            keywords := keywords self1;
            analysis_results :=
              <[ "overall_score" := VTenths o ]>
                {[ "title_analysis" := VDict (analyze_title db self);
                   "content_analysis" := VDict ca;
                   "structure_analysis" := VDict (analyze_structure self1);
                   "meta_description" :=
                     VStr (generate_meta_description self1) ]} |}.
Proof.
  intros self1.
  destruct (analyze_title_score db self) as (t & Ht & Htr).
  destruct (analyze_content_ok db self) as (ca & c & issues & Hca & Hc & _ & _ & _ & Hcr & _).
  fold self1 in Hca.
  destruct (analyze_structure_score self1) as (s & Hs & Hsr).
  destruct (mean_of_scores (t + c + s)) as (mean & o & Hmean & Hround & Ho & Hor);
    [lia|].
  exists ca, o.
  unfold analyze. rewrite Hca. cbn [mbind result_bind].
  erewrite (score_of_lookup _ _ "title_analysis" t); [|reflexivity|exact Ht].
  erewrite (score_of_lookup _ _ "content_analysis" c); [|reflexivity|exact Hc].
  erewrite (score_of_lookup _ _ "structure_analysis" s); [|reflexivity|exact Hs].
  cbn [mbind result_bind]. rewrite Hmean. cbn [mbind result_bind].
  rewrite Hround. reflexivity.
Qed.

(** The defect behind C1 in general: whenever the title is empty, the
    report stops on the missing key, whatever the document. *)
Lemma report_raises_without_title db (prog path text : pystr) :
  extract_title text = [] ->
  snd (main db (always text) [prog; path]) = Uncaught (KeyError "suggestions").
Proof.
  intros Ht. unfold main.
  rewrite (run_analysis_loaded db (always text) path text []) by reflexivity.
  destruct (analyze_shape db (loaded path text)) as (ca & o & ->).
  change (title (loaded path text)) with (extract_title text).
  unfold analyze_title.
  change (title (loaded path text)) with (extract_title text).
  rewrite Ht.
  vm_compute. reflexivity.
Qed.

(** * Further properties of the program *)

(** ** The command line *)

(** X2: with any number of arguments other than one, the program prints the
    two usage lines and exits with status 1; the file system plays no
    part. *)
Theorem wrong_argument_count db (fs : filesystem) (argv : list pystr) :
  length argv <> 2%nat ->
  main db fs argv
  = ([u "Usage: python blog_seo_analyzer.py <markdown_file>";
      u "Example: python blog_seo_analyzer.py my_blog_post.md"],
     Exit 1).
Proof.
  intros H. destruct argv as [|a [|b [|c l]]]; try reflexivity.
  contradiction H. reflexivity.
Qed.

Lemma wrong_argument_count_witness :
  exit_code (snd (main ascii_tables no_files [u "blog_seo_analyser.py"])) = 1.
Proof.
  rewrite (wrong_argument_count ascii_tables no_files [u "blog_seo_analyser.py"]).
  - reflexivity.
  - simpl. lia.
Defined.

(** X3: when reading the file fails for another reason than a missing file,
    the program prints [Error reading file: ] followed by the message of
    the exception, analyses nothing and exits with status 1. *)
Theorem unreadable_file_exits_1 db (fs : filesystem) (prog path message : pystr) :
  fs path = ReadFailed message ->
  run_analysis db fs (init path) []
  = ([u "Error reading file: " ++ message], Ok (init path, None))
  /\ main db fs [prog; path]
     = ([u "Error reading file: " ++ message], Exit 1).
Proof.
  intros H.
  assert (Hrun : run_analysis db fs (init path) []
                 = ([u "Error reading file: " ++ message], Ok (init path, None))).
  { unfold run_analysis, load_content, mbind, io_bind.
    cbn [file_path init]. rewrite H. reflexivity. }
  split; [exact Hrun|]. unfold main. rewrite Hrun. reflexivity.
Qed.

Lemma unreadable_file_exits_1_witness :
  main ascii_tables (fun _ => ReadFailed (u "Permission denied"))
       [u "blog_seo_analyser.py"; u "post.md"]
  = ([u "Error reading file: Permission denied"], Exit 1).
Proof.
  apply (unreadable_file_exits_1 ascii_tables
           (fun _ => ReadFailed (u "Permission denied"))
           (u "blog_seo_analyser.py") (u "post.md") (u "Permission denied")).
  reflexivity.
Defined.

(** ** The title score *)

(** X9: a title gets the full score exactly when it has between 30 and 60
    code points and at least three words; it then has no issue.  A title
    never scores below 60, and the penalties for a short and for a long
    title never come together. *)
Theorem title_score_perfect db (self : BlogSEOAnalyzer) :
  title self <> [] ->
  let len := Z.of_nat (length (title self)) in
  let words := Z.of_nat (count_fields false (lower db (title self))) in
  exists t issues,
    analyze_title db self !! "score" = Some (VInt t)
    /\ analyze_title db self !! "issues" = Some (VList issues)
    /\ analyze_title db self !! "length" = Some (VInt len)
    /\ 60 <= t <= 100
    /\ (t = 100 <-> 30 <= len <= 60 /\ 3 <= words)
    /\ (issues = [] <-> t = 100)
    /\ ~ (In (u "Title too short (< 30 characters)") issues
          /\ In (u "Title too long (> 60 characters)") issues).
Proof.
  intros Ht len words. unfold analyze_title.
  destruct (title self) as [|x l] eqn:E; [contradiction|].
  fold len. fold words.
  destruct (len <? 30) eqn:E1; [|destruct (len >? 60) eqn:E2];
    destruct (words <? 3) eqn:E3;
    eexists _, _;
    (split; [reflexivity|]); (split; [reflexivity|]); (split; [reflexivity|]);
    (split; [lia|]); (split; [lia|]);
    (split; [split; [discriminate || reflexivity | lia || reflexivity]|]);
    cbn; intros [H1 H2]; try contradiction;
    repeat (destruct H1 as [H1|H1]; try discriminate H1; try contradiction);
    repeat (destruct H2 as [H2|H2]; try discriminate H2; try contradiction).
Qed.

Lemma title_score_perfect_witness :
  exists t issues,
    analyze_title ascii_tables
      (loaded [] (u "# Ten ways to write a clearer README file")) !! "score"
    = Some (VInt t)
    /\ analyze_title ascii_tables
         (loaded [] (u "# Ten ways to write a clearer README file")) !! "issues"
       = Some (VList issues)
    /\ t = 100 /\ issues = [].
Proof.
  assert (H : title (loaded [] (u "# Ten ways to write a clearer README file")) <> [])
    by (vm_compute; discriminate).
  destruct (title_score_perfect ascii_tables _ H)
    as (t & issues & H1 & H2 & _ & _ & H5 & H6 & _).
  exists t, issues. split; [exact H1|]. split; [exact H2|].
  assert (Ht : t = 100) by (apply H5; repeat split; vm_compute; discriminate).
  split; [exact Ht|]. apply H6, Ht.
Defined.

(** ** The three analyses as dictionaries *)

Lemma analyze_title_dict db self :
  title self <> [] ->
  exists t issues,
    analyze_title db self
    = {[ "score" := VInt t;
         "length" := VInt (Z.of_nat (length (title self)));
         "issues" := VList issues;
         "suggestions" := VList title_suggestions ]}
    /\ 60 <= t <= 100.
Proof.
  intros Ht. unfold analyze_title.
  destruct (title self) as [|x l]; [contradiction|].
  destruct (Z.of_nat (length (x :: l)) <? 30);
    [|destruct (Z.of_nat (length (x :: l)) >? 60)];
    destruct (Z.of_nat (count_fields false (lower db (x :: l))) <? 3);
    eexists _, _; (split; [reflexivity|lia]).
Qed.

Ltac content_dict_leaf :=
  eexists _, _; cbn [mbind result_bind];
  split; [reflexivity|];
  split; [lia|];
  split; [intros ?; split; [cbn; tauto || lia | lia]|];
  intros ?; split; [lia|];
  cbn; intros HIn;
  repeat (destruct HIn as [HIn|HIn]; try discriminate HIn; try contradiction);
  lia.

Lemma analyze_content_dict db self :
  let wc := Z.of_nat (length (words_of db (content self))) in
  exists c issues,
    analyze_content db self
    = Ok (counted db self,
          {[ "score" := VInt c;
             "word_count" := VInt wc;
             "keywords" := VList (take 5 (keywords (counted db self)));
             "issues" := VList issues;
             "suggestions" := VList content_suggestions ]})
    /\ 45 <= c <= 100
    /\ (wc < 300 ->
        In (u "Content too short (< 300 words)") issues /\ c <= 60)
    /\ (300 <= wc ->
        75 <= c /\ ~ In (u "Content too short (< 300 words)") issues).
Proof.
  intros wc. unfold analyze_content, counted.
  cbn [word_count keywords content]. fold wc.
  pose proof (keywords_need_words (words_of db (content self))) as Hws.
  destruct (keywords_of (words_of db (content self))) as [|kw rest].
  - destruct (wc <? 300) eqn:E1; [|destruct (wc >? 2000) eqn:E2];
      content_dict_leaf.
  - specialize (Hws kw rest eq_refl).
    unfold py_truediv.
    destruct (wc =? 0) eqn:E0; [lia|].
    cbn [mbind result_bind].
    destruct (SFltb _ half);
      [|destruct (SFltb (float_of_int 3) _)];
      (destruct (wc <? 300) eqn:E1; [|destruct (wc >? 2000) eqn:E2]);
      content_dict_leaf.
Qed.

Lemma analyze_structure_dict self :
  let headings := Z.of_nat (length (findall re_subheading (content self))) in
  let lists := Z.of_nat (length (findall re_bullet (content self))) in
  let links := Z.of_nat (length (findall_group re_link (content self))) in
  exists s issues,
    analyze_structure self
    = {[ "score" := VInt s;
         "headings_count" := VInt headings;
         "lists_count" := VInt lists;
         "links_count" := VInt links;
         "issues" := VList issues;
         "suggestions" := VList structure_suggestions ]}
    /\ 65 <= s <= 100
    /\ s = 100 - (if headings <? 2 then 20 else 0)
               - (if lists <? 1 then 10 else 0)
               - (if links <? 1 then 5 else 0).
Proof.
  intros headings lists links. unfold analyze_structure.
  fold headings. fold lists. fold links.
  destruct (headings <? 2); destruct (lists <? 1); destruct (links <? 1);
    eexists _, _; (split; [reflexivity|split; [lia|reflexivity]]).
Qed.

Lemma div_half_even_3 n :
  10 * n - 1 <= 3 * div_half_even (10 * n) 3 <= 10 * n + 1.
Proof.
  unfold div_half_even.
  pose proof (Z.div_mod (10 * n) 3 ltac:(lia)) as Hd.
  pose proof (Z.mod_pos_bound (10 * n) 3 ltac:(lia)) as Hm.
  destruct (2 * ((10 * n) mod 3) ?= 3) eqn:E.
  - apply Z.compare_eq in E. lia.
  - rewrite Z.compare_lt_iff in E. lia.
  - rewrite Z.compare_gt_iff in E. lia.
Qed.

(** The analysis, given the three scores. *)
Lemma analyze_with db self ca t c s :
  analyze_title db self !! "score" = Some (VInt t) ->
  analyze_content db self = Ok (counted db self, ca) ->
  ca !! "score" = Some (VInt c) ->
  analyze_structure (counted db self) !! "score" = Some (VInt s) ->
  0 <= t + c + s <= 300 ->
  exists o,
    analyze db self
    = Ok {| file_path := file_path self; content := content self;
            title := title self;
            word_count := word_count (counted db self);
            keywords := keywords (counted db self);
            analysis_results :=
              <[ "overall_score" := VTenths o ]>
                {[ "title_analysis" := VDict (analyze_title db self);
                   "content_analysis" := VDict ca;
                   "structure_analysis" :=
                     VDict (analyze_structure (counted db self));
                   "meta_description" :=
                     VStr (generate_meta_description (counted db self)) ]} |}
    /\ o = div_half_even (10 * (t + c + s)) 3.
Proof.
  intros Ht Hca Hc Hs Hsum.
  destruct (mean_of_scores (t + c + s) Hsum) as (mean & o & Hmean & Hround & Ho & _).
  exists o. split; [|exact Ho].
  unfold analyze. rewrite Hca. cbn [mbind result_bind].
  erewrite (score_of_lookup _ _ "title_analysis" t); [|reflexivity|exact Ht].
  erewrite (score_of_lookup _ _ "content_analysis" c); [|reflexivity|exact Hc].
  erewrite (score_of_lookup _ _ "structure_analysis" s); [|reflexivity|exact Hs].
  cbn [mbind result_bind]. rewrite Hmean. cbn [mbind result_bind].
  rewrite Hround. reflexivity.
Qed.

(** ** Bounds on the scores *)

(** X13: the content analysis never scores below 45.  With fewer than 300
    words it reports the short content and scores at most 60; with 300
    words or more it does not report it and scores at least 75. *)
Theorem content_score_bounds db (self : BlogSEOAnalyzer) :
  let wc := Z.of_nat (length (words_of db (content self))) in
  exists self' ca c issues,
    analyze_content db self = Ok (self', ca)
    /\ word_count self' = wc
    /\ ca !! "score" = Some (VInt c)
    /\ ca !! "word_count" = Some (VInt wc)
    /\ ca !! "issues" = Some (VList issues)
    /\ 45 <= c <= 100
    /\ (wc < 300 ->
        In (u "Content too short (< 300 words)") issues /\ c <= 60)
    /\ (300 <= wc ->
        75 <= c /\ ~ In (u "Content too short (< 300 words)") issues).
Proof.
  intros wc.
  destruct (analyze_content_dict db self) as (c & issues & H & Hc & Hlt & Hge).
  eexists _, _, c, issues. split; [exact H|].
  repeat (split; [reflexivity|]).
  split; [exact Hc|]. split; [exact Hlt|exact Hge].
Qed.

(** X14: the floor of 0 in the three scores never comes into play: the title
    scores 0 (no title) or at least 60, the content at least 45, the
    structure at least 65; so the overall score is never below 36.7, and
    never below 56.7 when there is a title. *)
Theorem scores_have_floors db (self : BlogSEOAnalyzer) :
  exists self' ta ca sa t c s o,
    analyze db self = Ok self'
    /\ analysis_results self' !! "title_analysis" = Some (VDict ta)
    /\ analysis_results self' !! "content_analysis" = Some (VDict ca)
    /\ analysis_results self' !! "structure_analysis" = Some (VDict sa)
    /\ analysis_results self' !! "overall_score" = Some (VTenths o)
    /\ ta !! "score" = Some (VInt t)
    /\ ca !! "score" = Some (VInt c)
    /\ sa !! "score" = Some (VInt s)
    /\ (t = 0 /\ title self = [] \/ 60 <= t <= 100 /\ title self <> [])
    /\ 45 <= c <= 100
    /\ 65 <= s <= 100
    /\ 367 <= o <= 1000
    /\ (title self <> [] -> 567 <= o).
Proof.
  destruct (analyze_content_dict db self) as (c & ci & Hca & Hc & _).
  destruct (analyze_structure_dict (counted db self)) as (s & si & Hsa & Hs & _).
  assert (Htitle : exists t, analyze_title db self !! "score" = Some (VInt t)
            /\ (t = 0 /\ title self = [] \/ 60 <= t <= 100 /\ title self <> [])).
  { destruct (title self) as [|x l] eqn:E.
    - exists 0. unfold analyze_title. rewrite E. split; [reflexivity|]. left. auto.
    - destruct (analyze_title_dict db self) as (t & ti & Hta & Ht);
        [rewrite E; discriminate|].
      exists t. rewrite Hta. split; [reflexivity|]. right. split; [exact Ht|discriminate]. }
  destruct Htitle as (t & Ht & Htr).
  destruct (analyze_with db self _ t c s Ht Hca) as (o & Ha & Ho);
    [reflexivity|rewrite Hsa; reflexivity|lia|].
  pose proof (div_half_even_3 (t + c + s)) as Hnear. rewrite <- Ho in Hnear.
  eexists _, _, _, _, t, c, s, o.
  split; [exact Ha|]. cbn [analysis_results].
  repeat (split; [reflexivity|]).
  split; [exact Ht|]. split; [reflexivity|].
  split; [rewrite Hsa; reflexivity|].
  split; [exact Htr|]. split; [exact Hc|]. split; [exact Hs|].
  split; [lia|]. intros Hne. destruct Htr as [[_ Hnil]|[Htr _]]; [contradiction|lia].
Qed.

(** ** Printing the report *)

Lemma bind_print {B} (x : pystr) (f : unit -> io B) out :
  (print x ≫= f) out = f tt (out ++ [x]).
Proof. reflexivity. Qed.

Lemma bind_lift_ok {A B} (r : result A) (a : A) (f : A -> io B) out :
  r = Ok a -> (lift r ≫= f) out = f a out.
Proof. intros ->. reflexivity. Qed.

Lemma bind_mret {A B} (a : A) (f : A -> io B) out :
  (mret a ≫= f) out = f a out.
Proof. reflexivity. Qed.

Lemma io_bind_assoc {A B C} (m : io A) (g : A -> io B) (f : B -> io C) out :
  ((m ≫= g) ≫= f) out = (m ≫= fun a => g a ≫= f) out.
Proof.
  unfold mbind, io_bind. destruct (m out) as [out' [a|e]]; reflexivity.
Qed.

Lemma print_each out items :
  foldr (fun item rest => _ ← print (u "   - " ++ item); rest)
        (mret tt : io unit) items out
  = (out ++ map (fun item => u "   - " ++ item) items, Ok tt).
Proof.
  revert out. induction items as [|x items IH]; intros out; simpl foldr.
  - simpl. rewrite app_nil_r. reflexivity.
  - rewrite bind_print, IH, <- app_assoc. reflexivity.
Qed.

(** Listing issues or suggestions never fails. *)
Lemma print_items_eq heading items out :
  print_items heading items out = (out ++ item_lines heading items, Ok tt).
Proof.
  destruct items as [|x items].
  - simpl. rewrite app_nil_r. reflexivity.
  - unfold print_items, item_lines. rewrite bind_print, print_each.
    rewrite <- app_assoc. reflexivity.
Qed.

Lemma bind_print_items {B} heading items (f : unit -> io B) out :
  (print_items heading items ≫= f) out
  = f tt (out ++ item_lines heading items).
Proof.
  unfold mbind at 1, io_bind. rewrite print_items_eq. reflexivity.
Qed.

Ltac io_step :=
  first [ rewrite bind_print
        | rewrite bind_print_items
        | rewrite bind_mret
        | rewrite io_bind_assoc
        | erewrite bind_lift_ok by reflexivity ];
  cbn beta.

(** The report of an analyser that holds a title and complete results:
    every line of it, in the order of printing. *)
Lemma print_report_complete (self : BlogSEOAnalyzer) x l o
    t len ti ts c wc kw ci cs s h li lk si ss meta out :
  title self = x :: l ->
  analysis_results self
  = <[ "overall_score" := VTenths o ]>
      {[ "title_analysis" :=
           VDict {[ "score" := VInt t; "length" := VInt len;
                    "issues" := VList ti; "suggestions" := VList ts ]};
         "content_analysis" :=
           VDict {[ "score" := VInt c; "word_count" := VInt wc;
                    "keywords" := VList kw; "issues" := VList ci;
                    "suggestions" := VList cs ]};
         "structure_analysis" :=
           VDict {[ "score" := VInt s; "headings_count" := VInt h;
                    "lists_count" := VInt li; "links_count" := VInt lk;
                    "issues" := VList si; "suggestions" := VList ss ]};
         "meta_description" := VStr meta ]} ->
  print_report self out
  = (out ++
     [ [NL] ++ rule;
         u "SEO Analysis Report for: " ++ basename (file_path self);
         rule;
         [NL; 128202%N] ++ u " Overall SEO Score: " ++ str_tenths o ++ u "/100";
         [NL; 128221%N] ++ u " Title Analysis (Score: " ++ str_int t ++ u "/100)";
         u "   Title: " ++ title self;
         u "   Length: " ++ str_int len ++ u " characters" ]
       ++ item_lines (u "   Issues:") ti
       ++ item_lines (u "   Suggestions:") ts
       ++ [ [NL; 128196%N] ++ u " Content Analysis (Score: " ++ str_int c ++ u "/100)";
            u "   Word Count: " ++ str_int wc ]
       ++ match keywords self with
          | [] => []
          | _ :: _ => [u "   Top Keywords: " ++ join (u ", ") (take 3 (keywords self))]
          end
       ++ item_lines (u "   Issues:") ci
       ++ item_lines (u "   Suggestions:") cs
       ++ [ [NL; 127959%N; 65039%N] ++ u "  Structure Analysis (Score: "
              ++ str_int s ++ u "/100)";
            u "   Headings: " ++ str_int h;
            u "   Lists: " ++ str_int li;
            u "   Links: " ++ str_int lk ]
       ++ item_lines (u "   Issues:") si
       ++ item_lines (u "   Suggestions:") ss
       ++ [ [NL; 128269%N] ++ u " Suggested Meta Description:";
            u "   " ++ meta;
            [NL] ++ rule ],
     Ok tt).
Proof.
  intros Htitle Hres. unfold print_report. rewrite Hres, Htitle.
  change (is_empty_dict _) with false. cbv iota.
  repeat io_step.
  destruct (keywords self) as [|k ks]; repeat io_step;
    unfold print; rewrite <- !app_assoc; reflexivity.
Qed.

(** X1: for a file that can be read, the outcome depends on the title alone.
    Without a title the report stops on the missing key.  With a title
    [run_analysis] prints nothing and returns complete results, and the
    program prints the whole report, every line of it with the values of
    these results, from the opening to the closing rule, and exits with
    status 0. *)
Theorem report_needs_title db (prog path text : pystr) :
  match extract_title text with
  | [] =>
      snd (main db (always text) [prog; path])
      = Uncaught (KeyError "suggestions")
  | _ :: _ =>
      exists self o t len ti c wc kw ci s h li lk si meta,
        run_analysis db (always text) (init path) []
        = ([], Ok (self, Some (analysis_results self)))
        /\ analysis_results self
           = <[ "overall_score" := VTenths o ]>
               {[ "title_analysis" :=
                    VDict {[ "score" := VInt t; "length" := VInt len;
                             "issues" := VList ti;
                             "suggestions" := VList title_suggestions ]};
                  "content_analysis" :=
                    VDict {[ "score" := VInt c; "word_count" := VInt wc;
                             "keywords" := VList kw; "issues" := VList ci;
                             "suggestions" := VList content_suggestions ]};
                  "structure_analysis" :=
                    VDict {[ "score" := VInt s; "headings_count" := VInt h;
                             "lists_count" := VInt li;
                             "links_count" := VInt lk;
                             "issues" := VList si;
                             "suggestions" := VList structure_suggestions ]};
                  "meta_description" := VStr meta ]}
        /\ main db (always text) [prog; path]
           = ([ [NL] ++ rule;
               u "SEO Analysis Report for: " ++ basename path;
               rule;
               [NL; 128202%N] ++ u " Overall SEO Score: " ++ str_tenths o ++ u "/100";
               [NL; 128221%N] ++ u " Title Analysis (Score: " ++ str_int t ++ u "/100)";
               u "   Title: " ++ extract_title text;
               u "   Length: " ++ str_int len ++ u " characters" ]
             ++ item_lines (u "   Issues:") ti
             ++ item_lines (u "   Suggestions:") title_suggestions
             ++ [ [NL; 128196%N] ++ u " Content Analysis (Score: " ++ str_int c ++ u "/100)";
                  u "   Word Count: " ++ str_int wc ]
             ++ match keywords self with
                | [] => []
                | _ :: _ => [u "   Top Keywords: " ++ join (u ", ") (take 3 (keywords self))]
                end
             ++ item_lines (u "   Issues:") ci
             ++ item_lines (u "   Suggestions:") content_suggestions
             ++ [ [NL; 127959%N; 65039%N] ++ u "  Structure Analysis (Score: "
                    ++ str_int s ++ u "/100)";
                  u "   Headings: " ++ str_int h;
                  u "   Lists: " ++ str_int li;
                  u "   Links: " ++ str_int lk ]
             ++ item_lines (u "   Issues:") si
             ++ item_lines (u "   Suggestions:") structure_suggestions
             ++ [ [NL; 128269%N] ++ u " Suggested Meta Description:";
                  u "   " ++ meta;
                  [NL] ++ rule ],
              Exit 0)
  end.
Proof.
  destruct (extract_title text) as [|x l] eqn:Et.
  - apply report_raises_without_title, Et.
  - set (self := loaded path text).
    assert (Htitle : title self = x :: l) by exact Et.
    destruct (analyze_title_dict db self) as (t & ti & Hta & Ht);
      [rewrite Htitle; discriminate|].
    destruct (analyze_content_dict db self) as (c & ci & Hca & Hc & _).
    destruct (analyze_structure_dict (counted db self)) as (s & si & Hsa & Hs & _).
    edestruct (analyze_with db self) as (o & Ha & _);
      [rewrite Hta; reflexivity|exact Hca|reflexivity
      |rewrite Hsa; reflexivity|lia|].
    rewrite Hta, Hsa in Ha.
    pose proof (run_analysis_loaded db (always text) path text [] eq_refl)
      as Hrun.
    fold self in Hrun. rewrite Ha in Hrun.
    eexists _, o, t, _, ti, c, _, _, ci, s, _, _, _, si, _.
    split; [exact Hrun|]. split; [reflexivity|].
    unfold main. rewrite Hrun.
    change (is_empty_dict _) with false. cbv iota.
    match goal with
    | |- context [print_report ?a ?out] =>
        erewrite (print_report_complete a) by (exact Htitle || reflexivity)
    end.
    cbn [title file_path keywords]. rewrite Htitle. reflexivity.
Qed.

(** ** The ends of a stripped text *)

Lemma lstrip_head s c : head (lstrip s) = Some c -> is_space c = false.
Proof.
  induction s as [|x s IH]; simpl; [discriminate|].
  destruct (is_space x) eqn:Hx; [exact IH|].
  simpl. intros [= <-]. exact Hx.
Qed.

Lemma last_rev (l : pystr) : last (rev l) = head l.
Proof. destruct l as [|x l]; [reflexivity|]. simpl. apply last_snoc. Qed.

Lemma rstrip_last s c : last (rstrip s) = Some c -> is_space c = false.
Proof. unfold rstrip. rewrite last_rev. apply lstrip_head. Qed.

Lemma strip_head s c : head (strip s) = Some c -> is_space c = false.
Proof.
  unfold strip. pose proof (lstrip_head s) as H.
  destruct (lstrip s) as [|x t]; [discriminate|].
  specialize (H x eq_refl). rewrite rstrip_cons, H. simpl.
  intros [= <-]. exact H.
Qed.

Lemma strip_last s c : last (strip s) = Some c -> is_space c = false.
Proof. apply rstrip_last. Qed.

Lemma strip_length s : (length (strip s) <= length s)%nat.
Proof.
  destruct (strip_decompose s) as (a & b & Hd & _).
  rewrite Hd at 2. rewrite !length_app. lia.
Qed.

(** ** The extracted title *)

Lemma rep_group (P : pystr -> Prop) (cap greedy : bool) (cls : N -> bool)
    (k : cont) lo hi prev s n g :
  (forall q x m y, k q x = Some (m, y) -> P y) ->
  (forall c y, cls c = true -> P y -> P (if cap then c :: y else y)) ->
  rep cap greedy cls k lo hi prev s = Some (n, g) -> P g.
Proof.
  intros Hk Hc. revert lo hi prev n g.
  induction s as [|c s IH]; intros lo hi prev n g; rewrite rep_eq; cbn zeta.
  - destruct greedy, lo; simpl; try discriminate.
    + apply Hk.
    + destruct (k prev []) as [[m y]|] eqn:E; [|discriminate].
      intros [= <- <-]. apply (Hk _ _ _ _ E).
  - assert (Hmore : (if cls c && may_repeat hi
                     then bump cap c (rep cap greedy cls k (pred lo) (option_map pred hi) (Some c) s)
                     else None) = Some (n, g) -> P g).
    { destruct (cls c) eqn:Hcls; [|discriminate].
      destruct (may_repeat hi); [|discriminate]. simpl andb. cbv iota.
      intros (n' & g' & Hr & -> & ->)%bump_Some.
      apply Hc; [exact Hcls|]. eapply IH, Hr. }
    assert (Hstop : match lo with O => k prev (c :: s) | S _ => None end = Some (n, g)
                    -> P g).
    { destruct lo; [apply Hk|discriminate]. }
    destruct greedy.
    + destruct (if cls c && may_repeat hi then _ else _) as [r|] eqn:E.
      * intros [= ->]. auto.
      * auto.
    + destruct (match lo with O => _ | S _ => _ end) as [r|] eqn:E.
      * intros [= ->]. auto.
      * auto.
Qed.

Lemma rmatch_title prev s :
  rmatch re_title prev s
  = if at_bol prev
    then match s with
         | c :: s' =>
             if (HASH =? c)%N
             then bump false c
                    (rep false true is_space
                       (rep true true dot (rmatch [Eol]) 1 None)
                       1 None (Some c) s')
             else None
         | [] => None
         end
    else None.
Proof. reflexivity. Qed.

(** The group of a title match has no line break. *)
Lemma title_group_one_line prev s n g :
  rmatch re_title prev s = Some (n, g) -> NL ∉ g.
Proof.
  rewrite rmatch_title. destruct (at_bol prev); [|discriminate].
  destruct s as [|c s]; [discriminate|].
  destruct (HASH =? c)%N; [|discriminate].
  intros (n' & g' & Hr & _ & ->)%bump_Some.
  revert Hr. apply (rep_group (fun y => NL ∉ y)).
  - intros q x m y. apply (rep_group (fun y => NL ∉ y)).
    + intros q' x' m' y'. simpl. destruct (at_eol x'); [|discriminate].
      intros [= _ <-]. apply not_elem_of_nil.
    + intros c' y' Hd Hy. apply not_elem_of_cons. split; [|exact Hy].
      intros <-. discriminate Hd.
  - intros c' y' _ Hy. exact Hy.
Qed.

Lemma search_from_Some p prev s i r :
  search_from p prev s = Some (i, r) ->
  exists q x, rmatch p q x = Some r.
Proof.
  revert prev i. induction s as [|c s IH]; intros prev i; simpl.
  - destruct (rmatch p prev []) as [r'|] eqn:E; [|discriminate].
    intros [= _ <-]. eauto.
  - destruct (rmatch p prev (c :: s)) as [r'|] eqn:E.
    + intros [= _ <-]. eauto.
    + destruct (search_from p (Some c) s) as [[j r']|] eqn:E'; [|discriminate].
      intros [= _ <-]. eapply IH, E'.
Qed.

(** X7: the title is one line without surrounding whitespace: it contains no
    line break and neither starts nor ends with whitespace. *)
Theorem extracted_title_one_line (text : pystr) :
  (NL ∉ extract_title text)
  /\ (forall c, head (extract_title text) = Some c -> is_space c = false)
  /\ (forall c, last (extract_title text) = Some c -> is_space c = false).
Proof.
  unfold extract_title.
  destruct (search re_title text) as [[i [n g]]|] eqn:E.
  - split; [|split; [apply strip_head|apply strip_last]].
    apply search_from_Some in E as (q & x & E).
    intros H%strip_subset. apply (title_group_one_line _ _ _ _ E H).
  - split; [apply not_elem_of_nil|]. split; intros c; discriminate.
Qed.

(** ** The cleaned text *)

Lemma rmatch_group_length p prev s n g :
  rmatch p prev s = Some (n, g) -> (length g <= n)%nat.
Proof.
  revert prev s n g.
  change (ensures (fun n g _ => (length g <= n)%nat) (rmatch p)).
  rewrite <- (app_nil_r p). apply rmatch_ensures_app.
  - intros cap c n g s H. destruct cap; simpl; lia.
  - intros prev s n g [= <- <-]. simpl. lia.
Qed.

(** A substitution whose replacement is no longer than the group does not
    lengthen the text. *)
Lemma sub_go_length p r skip prev s :
  (forall g, (length (expand r g) <= length g)%nat) ->
  (length (sub_go p r skip prev s) <= length s - skip)%nat.
Proof.
  intros Hr. revert skip prev.
  induction s as [|c s IH]; intros skip prev; destruct skip as [|k]; simpl.
  - destruct (rmatch p prev []) as [[n g]|] eqn:E; [|simpl; lia].
    rewrite app_nil_r.
    pose proof (rmatch_group_length _ _ _ _ _ E).
    pose proof (proj1 (rmatch_within _ _ _ _ _ E)) as Hn. simpl in Hn.
    specialize (Hr g). lia.
  - lia.
  - destruct (rmatch p prev (c :: s)) as [[n g]|] eqn:E.
    + pose proof (rmatch_group_length _ _ _ _ _ E).
      pose proof (proj1 (rmatch_within _ _ _ _ _ E)) as Hn. simpl in Hn.
      specialize (Hr g). rewrite length_app.
      destruct n as [|n'].
      * simpl. specialize (IH O (Some c)). lia.
      * specialize (IH n' (Some c)). lia.
    + simpl. specialize (IH O (Some c)). lia.
  - apply IH.
Qed.

Lemma cleaning_templates_shrink r g :
  In r (map snd cleaning_steps) -> (length (expand r g) <= length g)%nat.
Proof.
  simpl. intros H.
  repeat (destruct H as [<-|H]; [simpl; lia|]). contradiction.
Qed.

(** X4: cleaning only removes: every code point of the cleaned text occurs in
    the document, the cleaned text is not longer than the document, and
    it neither starts nor ends with whitespace. *)
Theorem cleaning_only_removes (text : pystr) :
  (forall x, x ∈ _clean_markdown text -> x ∈ text)
  /\ (length (_clean_markdown text) <= length text)%nat
  /\ (forall c, head (_clean_markdown text) = Some c -> is_space c = false)
  /\ (forall c, last (_clean_markdown text) = Some c -> is_space c = false).
Proof.
  split; [|split; [|split; [apply strip_head|apply strip_last]]].
  - intros x H%clean_subset. unfold strip_headers, sub in H.
    apply sub_go_subset in H; [exact H|].
    apply expand_subset. simpl. tauto.
  - unfold _clean_markdown, sub.
    etransitivity; [apply strip_length|].
    repeat (etransitivity;
            [apply sub_go_length; intros g;
             apply cleaning_templates_shrink; simpl; tauto|];
            rewrite Nat.sub_0_r).
    reflexivity.
Qed.

(** ** The meta description *)

Lemma single_spaced_collapse_runs b s :
  single_spaced b (collapse_runs b s) = true.
Proof.
  revert b. induction s as [|c s IH]; intros b; [reflexivity|].
  simpl collapse_runs. destruct (is_space c) eqn:Hc.
  - destruct b; [apply IH|].
    simpl. rewrite IH. reflexivity.
  - simpl. rewrite Hc. apply IH.
Qed.

Lemma single_spaced_weaken b s :
  single_spaced true s = true -> single_spaced b s = true.
Proof.
  destruct s as [|c s]; [reflexivity|]. simpl.
  destruct (is_space c); [|intros H; exact H].
  rewrite andb_false_r. discriminate.
Qed.

Lemma single_spaced_take b n s :
  single_spaced b s = true -> single_spaced b (take n s) = true.
Proof.
  revert b s. induction n as [|n IH]; intros b s; [reflexivity|].
  destruct s as [|c s]; [reflexivity|]. simpl.
  destruct (is_space c).
  - intros [H1 H2]%andb_prop. rewrite H1, (IH _ _ H2). reflexivity.
  - apply IH.
Qed.

Lemma single_spaced_app b s t :
  single_spaced b s = true -> single_spaced false t = true ->
  forallb (fun c => negb (is_space c)) t = true ->
  single_spaced b (s ++ t) = true.
Proof.
  intros Hs Ht Hn. revert b Hs. induction s as [|c s IH]; intros b Hs.
  - simpl. destruct t as [|c t]; [reflexivity|]. simpl in *.
    apply andb_prop in Hn as [Hc _]. apply negb_true_iff in Hc.
    rewrite Hc in *. exact Ht.
  - simpl in *. destruct (is_space c).
    + apply andb_prop in Hs as [H1 H2]. rewrite H1, (IH _ H2). reflexivity.
    + apply IH, Hs.
Qed.

Lemma single_spaced_no_newline b s : single_spaced b s = true -> NL ∉ s.
Proof.
  revert b. induction s as [|c s IH]; intros b Hs.
  - apply not_elem_of_nil.
  - apply not_elem_of_cons. simpl in Hs.
    destruct (is_space c) eqn:Hc.
    + apply andb_prop in Hs as [[Hsp _]%andb_prop Hs].
      apply N.eqb_eq in Hsp. subst c. split; [discriminate|apply (IH _ Hs)].
    + split; [intros <-; discriminate Hc|apply (IH _ Hs)].
Qed.

Lemma collapsed_runs text : collapsed text = collapse_runs false (strip text).
Proof. unfold collapsed, sub. apply (proj1 (sub_spaces_collapse _)). Qed.

Lemma single_spaced_collapsed text : single_spaced true (collapsed text) = true.
Proof.
  rewrite collapsed_runs. pose proof (strip_head text) as H.
  destruct (strip text) as [|c s]; [reflexivity|].
  specialize (H c eq_refl). simpl. rewrite H. simpl. rewrite H.
  apply single_spaced_collapse_runs.
Qed.

(** X15: the meta description always fits in 150 code points and is a single
    line of text: it contains no whitespace but single spaces, and does
    not start with one. *)
Theorem meta_description_one_line (self : BlogSEOAnalyzer) :
  (length (generate_meta_description self) <= 150)%nat
  /\ single_spaced true (generate_meta_description self) = true
  /\ (NL ∉ generate_meta_description self).
Proof.
  assert (H : (length (generate_meta_description self) <= 150)%nat
              /\ single_spaced true (generate_meta_description self) = true).
  { unfold generate_meta_description.
    destruct (title self) as [|x t]; [split; [simpl; lia|reflexivity]|].
    pose proof (single_spaced_collapsed (content self)) as Hs.
    destruct (150 <? length (collapsed (content self)))%nat eqn:E.
    - split.
      + rewrite length_app, length_take.
        change (length (u "...")) with 3%nat. lia.
      + apply single_spaced_app;
          [apply single_spaced_take, Hs|reflexivity|reflexivity].
    - apply Nat.ltb_ge in E. split; [exact E|exact Hs]. }
  destruct H as [Hlen Hs]. split; [exact Hlen|]. split; [exact Hs|].
  apply (single_spaced_no_newline _ _ Hs).
Qed.

(** ** The keyword list *)

Lemma counter_add_keys w c :
  (counter_add w c).*1 = if decide (w ∈ c.*1) then c.*1 else c.*1 ++ [w].
Proof.
  induction c as [|[x n] c IH].
  - cbn. destruct (decide _) as [H|_]; [inversion H|reflexivity].
  - cbn [counter_add].
    destruct (decide (x = w)) as [->|Hne]; rewrite !fmap_cons; cbn [fst].
    + destruct (decide (w ∈ w :: c.*1)) as [_|H]; [reflexivity|].
      contradiction H. left.
    + rewrite IH.
      destruct (decide (w ∈ c.*1)) as [Hin|Hnin];
        destruct (decide (w ∈ x :: c.*1)) as [Hin'|Hnin']; try reflexivity.
      * contradiction Hnin'. right. exact Hin.
      * apply elem_of_cons in Hin' as [->|Hin']; [congruence|contradiction].
Qed.

Lemma counter_add_entries w c x n :
  NoDup (c.*1) ->
  (x, n) ∈ counter_add w c ->
  (x <> w /\ (x, n) ∈ c)
  \/ (x = w /\ exists m, n = S m /\ ((w, m) ∈ c \/ (m = O /\ w ∉ c.*1))).
Proof.
  induction c as [|[y k] c IH]; simpl; intros Hnd.
  - intros [= -> ->]%list_elem_of_singleton. right. split; [reflexivity|].
    exists O. split; [reflexivity|]. right.
    split; [reflexivity|apply not_elem_of_nil].
  - apply NoDup_cons in Hnd as [Hy Hnd].
    destruct (decide (y = w)) as [->|Hne].
    + intros [[= -> ->]|Hin]%elem_of_cons.
      * right. split; [reflexivity|]. exists k. split; [reflexivity|]. left. left.
      * left. split; [|right; exact Hin].
        intros ->. apply Hy.
        apply list_elem_of_fmap. exists (w, n). split; [reflexivity|exact Hin].
    + intros [[= -> ->]|Hin]%elem_of_cons.
      * left. split; [exact Hne|]. left.
      * destruct (IH Hnd Hin) as [[Hx Hc]|(-> & m & -> & [Hc|[-> Hc]])].
        -- left. split; [exact Hx|]. right. exact Hc.
        -- right. split; [reflexivity|]. exists m. split; [reflexivity|].
           left. right. exact Hc.
        -- right. split; [reflexivity|]. exists O. split; [reflexivity|].
           right. split; [reflexivity|].
           intros [->|H]%elem_of_cons; [congruence|contradiction].
Qed.

Lemma occurrences_zero w ws : w ∉ ws -> occurrences w ws = O.
Proof.
  unfold occurrences. induction ws as [|x ws IH]; [reflexivity|].
  intros [Hne Hnin]%not_elem_of_cons. rewrite filter_cons.
  destruct (decide (x = w)) as [->|_]; [congruence|]. apply IH, Hnin.
Qed.

Lemma counter_add_exact w c ws :
  counter_exact c ws -> counter_exact (counter_add w c) (ws ++ [w]).
Proof.
  intros (Hnd & Hcount & Hall). split; [|split].
  - rewrite counter_add_keys. destruct (decide (w ∈ c.*1)) as [_|Hnin]; [exact Hnd|].
    apply NoDup_app. split; [exact Hnd|]. split; [|apply NoDup_singleton].
    intros x Hx Hw. apply list_elem_of_singleton in Hw. subst x. contradiction.
  - intros x n Hin. rewrite occurrences_snoc.
    destruct (counter_add_entries _ _ _ _ Hnd Hin)
      as [[Hx Hc]|(-> & m & -> & [Hc|[-> Hc]])].
    + rewrite (Hcount _ _ Hc). destruct (decide (w = x)); [congruence|lia].
    + rewrite (Hcount _ _ Hc). destruct (decide (w = w)); [lia|congruence].
    + rewrite occurrences_zero by (intros H; apply Hc, Hall, H).
      destruct (decide (w = w)); [reflexivity|congruence].
  - intros x Hx. rewrite counter_add_keys.
    apply elem_of_app in Hx as [Hx|Hx].
    + destruct (decide (w ∈ c.*1)); [auto|apply elem_of_app; left; auto].
    + apply list_elem_of_singleton in Hx. subst x.
      destruct (decide (w ∈ c.*1)) as [H|H]; [exact H|].
      apply elem_of_app. right. left.
Qed.

(** [Counter] counts exactly. *)
Lemma Counter_exact ws : counter_exact (Counter ws) ws.
Proof.
  unfold Counter.
  enough (G : forall l c seen, counter_exact c seen ->
            counter_exact (fold_left (fun c w => counter_add w c) l c) (seen ++ l)).
  { apply (G ws [] []). split; [constructor|].
    split; [intros x n H; inversion H|intros x H; inversion H]. }
  induction l as [|w l IH]; intros c seen H; simpl.
  - rewrite app_nil_r. exact H.
  - replace (seen ++ w :: l) with ((seen ++ [w]) ++ l)
      by (rewrite <- app_assoc; reflexivity).
    apply IH, counter_add_exact, H.
Qed.

Lemma insert_by_count_perm x l : insert_by_count x l ≡ₚ x :: l.
Proof.
  induction l as [|y l IH]; simpl; [reflexivity|].
  destruct (snd y <=? snd x)%nat; [reflexivity|].
  rewrite IH. apply Permutation_swap.
Qed.

Lemma insert_by_count_sorted x l :
  StronglySorted by_count l -> StronglySorted by_count (insert_by_count x l).
Proof.
  induction l as [|y l IH]; simpl; intros Hs.
  - constructor; [constructor|constructor].
  - apply StronglySorted_inv in Hs as [Hs Hy].
    destruct (snd y <=? snd x)%nat eqn:E.
    + apply Nat.leb_le in E. constructor; [constructor; assumption|].
      constructor; [exact E|].
      eapply Forall_impl; [exact Hy|]. unfold by_count. intros z Hz. lia.
    + apply Nat.leb_gt in E. constructor; [apply IH, Hs|].
      rewrite insert_by_count_perm. constructor; [|exact Hy].
      unfold by_count. lia.
Qed.

Lemma sorted_by_count c :
  foldr insert_by_count [] c ≡ₚ c
  /\ StronglySorted by_count (foldr insert_by_count [] c).
Proof.
  induction c as [|x c [IHp IHs]]; simpl; [split; [reflexivity|constructor]|].
  split; [rewrite insert_by_count_perm, IHp; reflexivity|].
  apply insert_by_count_sorted, IHs.
Qed.

Lemma StronglySorted_sublist {A} (R : A -> A -> Prop) (l k : list A) :
  l `sublist_of` k -> StronglySorted R k -> StronglySorted R l.
Proof.
  induction 1 as [|x l k Hsub IH|x l k Hsub IH]; intros Hs.
  - constructor.
  - apply StronglySorted_inv in Hs as [Hs Hx].
    constructor; [apply IH, Hs|].
    rewrite Forall_forall in *. intros y Hy. apply Hx.
    eapply elem_of_sublist; [exact Hy|exact Hsub].
  - apply StronglySorted_inv in Hs as [Hs _]. apply IH, Hs.
Qed.


(** The entries that become keywords, among the sorted entries. *)
Lemma keyword_entries_sublist ws :
  filter (fun wc : pystr * nat => (1 < snd wc)%nat)
         (most_common 10 (Counter (filtered_words ws)))
  `sublist_of` foldr insert_by_count [] (Counter (filtered_words ws)).
Proof.
  unfold most_common. etransitivity; [apply sublist_filter|apply sublist_take].
Qed.

Lemma keyword_entry_exact ws x n :
  (x, n) ∈ foldr insert_by_count [] (Counter (filtered_words ws)) ->
  n = occurrences x (filtered_words ws).
Proof.
  rewrite (proj1 (sorted_by_count _)).
  apply (Counter_exact (filtered_words ws)).
Qed.


Lemma keywords_sorted_entries (E : list (pystr * nat)) (fw : list pystr) :
  (forall x n, (x, n) ∈ E -> n = occurrences x fw) ->
  StronglySorted by_count E ->
  StronglySorted (fun a b => (occurrences b fw <= occurrences a fw)%nat) (E.*1).
Proof.
  induction E as [|[x n] E IH]; intros Hex Hs; [constructor|].
  apply StronglySorted_inv in Hs as [Hs Hx]. rewrite fmap_cons.
  constructor.
  - apply IH; [|exact Hs]. intros y m Hy. apply Hex. right. exact Hy.
  - rewrite Forall_forall in Hx. apply Forall_forall. intros y Hy.
    apply list_elem_of_fmap in Hy as ([y' m] & -> & Hy). simpl.
    specialize (Hx _ Hy). unfold by_count in Hx. simpl in Hx.
    rewrite <- (Hex x n) by left. rewrite <- (Hex y' m) by (right; exact Hy).
    exact Hx.
Qed.

Lemma filter_no_entry (l : list (pystr * nat)) :
  (forall e, e ∈ l -> ~ (1 < snd e)%nat) ->
  filter (fun wc : pystr * nat => (1 < snd wc)%nat) l = [].
Proof.
  induction l as [|e l IH]; intros H; [reflexivity|].
  rewrite filter_cons. destruct (decide (1 < snd e)%nat) as [Hgt|_].
  - contradiction (H e ltac:(left)).
  - apply IH. intros e' He'. apply H. right. exact He'.
Qed.

(** The head of the sorted counter is a most frequent filtered token. *)
Lemma sorted_counter_head ws :
  match foldr insert_by_count [] (Counter (filtered_words ws)) with
  | [] => filtered_words ws = []
  | (k0, n0) :: _ =>
      n0 = occurrences k0 (filtered_words ws)
      /\ forall w, (occurrences w (filtered_words ws) <= n0)%nat
  end.
Proof.
  pose proof (sorted_by_count (Counter (filtered_words ws))) as [Hp Hs].
  pose proof (Counter_exact (filtered_words ws)) as (_ & Hcount & Hall).
  destruct (foldr insert_by_count [] (Counter (filtered_words ws)))
    as [|[k0 n0] S'] eqn:E.
  - destruct (filtered_words ws) as [|w fw]; [reflexivity|].
    specialize (Hall w ltac:(left)). rewrite <- Hp in Hall. inversion Hall.
  - split; [apply Hcount; rewrite <- Hp; left|].
    intros w. destruct (decide (w ∈ filtered_words ws)) as [Hw|Hw];
      [|rewrite (occurrences_zero _ _ Hw); lia].
    apply Hall, list_elem_of_fmap in Hw as ([w' n] & -> & Hw). simpl.
    rewrite <- (Hcount _ _ Hw). rewrite <- Hp in Hw.
    apply StronglySorted_inv in Hs as [_ Hs]. rewrite Forall_forall in Hs.
    apply elem_of_cons in Hw as [[= -> ->]|Hw]; [lia|].
    apply (Hs _ Hw).
Qed.

(** X12: the keywords are ranked: they come by non-increasing number of
    occurrences among the filtered tokens; there is no keyword exactly when
    no filtered token occurs twice; and the primary keyword, when there is
    one, occurs at least twice and is a most frequent filtered token. *)
Theorem keyword_ranking (ws : list pystr) :
  let fw := filtered_words ws in
  StronglySorted (fun a b => (occurrences b fw <= occurrences a fw)%nat)
                 (keywords_of ws)
  /\ (keywords_of ws = [] <-> forall w, (occurrences w fw <= 1)%nat)
  /\ (forall primary, head (keywords_of ws) = Some primary ->
        (2 <= occurrences primary fw)%nat
        /\ forall w, (occurrences w fw <= occurrences primary fw)%nat).
Proof.
  intros fw.
  assert (Hrank : match keywords_of ws with
                  | primary :: _ =>
                      forall w, (occurrences w fw <= occurrences primary fw)%nat
                  | [] => forall w, (occurrences w fw <= 1)%nat
                  end).
  { pose proof (sorted_counter_head ws) as Hhead.
    pose proof (sorted_by_count (Counter (filtered_words ws))) as [_ Hs].
    unfold keywords_of, most_common.
    destruct (foldr insert_by_count [] (Counter (filtered_words ws)))
      as [|[k0 n0] S'] eqn:E.
    + simpl. fold fw in Hhead. rewrite Hhead. intros w. cbn. lia.
    + destruct Hhead as [Hn0 Hmax]. fold fw in Hn0, Hmax.
      change (take 10 ((k0, n0) :: S')) with ((k0, n0) :: take 9 S').
      rewrite filter_cons. simpl snd.
      destruct (decide (1 < n0)%nat) as [Hgt|Hle].
      * simpl. intros w. rewrite <- Hn0. apply Hmax.
      * assert (Hnil : filter (fun wc : pystr * nat => (1 < snd wc)%nat)
                              (take 9 S') = []).
        { apply StronglySorted_inv in Hs as [_ Hs].
          rewrite Forall_forall in Hs.
          apply filter_no_entry. intros [y m] Hy. simpl.
          assert (Hin : (y, m) ∈ S')
            by (eapply elem_of_sublist; [exact Hy|apply sublist_take]).
          specialize (Hs _ Hin). unfold by_count in Hs. simpl in Hs. lia. }
        rewrite Hnil. simpl. intros w. specialize (Hmax w). lia. }
  assert (Htwice : forall kw, kw ∈ keywords_of ws ->
                     (2 <= occurrences kw fw)%nat)
    by (intros kw Hkw; apply keyword_occurs_twice, Hkw).
  split; [|split].
  - unfold keywords_of. apply keywords_sorted_entries.
    + intros x n Hx. apply keyword_entry_exact.
      eapply elem_of_sublist; [exact Hx|apply keyword_entries_sublist].
    + eapply StronglySorted_sublist; [apply keyword_entries_sublist|].
      apply sorted_by_count.
  - split.
    + intros Hnil. rewrite Hnil in Hrank. exact Hrank.
    + intros Hone. destruct (keywords_of ws) as [|kw rest]; [reflexivity|].
      specialize (Htwice kw ltac:(left)). specialize (Hone kw). lia.
  - intros primary Hhead.
    destruct (keywords_of ws) as [|kw rest]; [discriminate|].
    injection Hhead as ->.
    split; [apply Htwice; left|exact Hrank].
Qed.

(** ** Tokens *)

Lemma rep_word isw lo prev s :
  (lo = O -> word_before isw prev = true) ->
  rep false true isw (rmatch [WordB isw]) lo None prev s
  = if (lo <=? word_run_length isw s)%nat
    then Some (word_run_length isw s, []) else None.
Proof.
  revert lo prev. induction s as [|c s IH]; intros lo prev Hlo.
  - rewrite rep_eq. cbn zeta. destruct lo as [|lo]; [|reflexivity].
    simpl. rewrite (Hlo eq_refl). reflexivity.
  - rewrite rep_eq. cbn zeta. simpl word_run_length. simpl option_map.
    destruct (isw c) eqn:Hc; simpl andb; cbv iota.
    + rewrite IH by (intros _; exact Hc).
      destruct lo as [|lo]; simpl pred.
      * simpl. reflexivity.
      * change (S lo <=? S (word_run_length isw s))%nat
          with (lo <=? word_run_length isw s)%nat.
        destruct (lo <=? word_run_length isw s)%nat; reflexivity.
    + destruct lo as [|lo]; [|reflexivity].
      simpl. rewrite (Hlo eq_refl), Hc. reflexivity.
Qed.

(** The word pattern at a position: the whole run of word characters
    there, unless a word character comes before. *)
Lemma rmatch_word db prev s :
  rmatch (re_word db) prev s
  = if word_before (is_word db) prev then None
    else match word_run_length (is_word db) s with
         | O => None
         | S n => Some (S n, [])
         end.
Proof.
  unfold re_word, plus.
  change (rmatch [WordB (is_word db); Rep false true (is_word db) 1 None;
                  WordB (is_word db)] prev s)
    with (if xorb (word_before (is_word db) prev) (word_after (is_word db) s)
          then rep false true (is_word db) (rmatch [WordB (is_word db)])
                   1 None prev s
          else None).
  rewrite rep_word by discriminate.
  destruct (word_before (is_word db) prev);
    destruct s as [|c s]; simpl; try reflexivity;
    destruct (is_word db c); reflexivity.
Qed.

Lemma word_after_run isw s :
  word_after isw s = false -> word_run_length isw s = O.
Proof. destruct s as [|c s]; simpl; [reflexivity|]. intros ->. reflexivity. Qed.

Lemma word_runs_head isw s :
  word_after isw s = true ->
  word_runs isw s
  = take (word_run_length isw s) s :: tail (word_runs isw s).
Proof.
  induction s as [|c s IH]; simpl; [discriminate|].
  intros Hc. rewrite Hc.
  destruct (word_after isw s) eqn:Ha.
  - rewrite (IH eq_refl). reflexivity.
  - rewrite (word_after_run _ _ Ha). reflexivity.
Qed.

Lemma finditer_word_runs db s :
  (forall prev,
      (word_before (is_word db) prev = true ->
       word_after (is_word db) s = false) ->
      finditer_go (re_word db) O prev s
      = map (fun r => (r, [])) (word_runs (is_word db) s))
  /\ (forall prev,
         finditer_go (re_word db) (word_run_length (is_word db) s) prev s
         = map (fun r => (r, []))
               (if word_after (is_word db) s
                then tail (word_runs (is_word db) s)
                else word_runs (is_word db) s)).
Proof.
  induction s as [|c s [IHA IHB]].
  - assert (H : forall prev, finditer_go (re_word db) O prev [] = []).
    { intros prev. cbn [finditer_go]. rewrite rmatch_word.
      destruct (word_before (is_word db) prev); reflexivity. }
    split; intros prev; [intros _|]; apply H.
  - destruct (is_word db c) eqn:Hc.
    + assert (HB : forall prev,
                 finditer_go (re_word db)
                   (word_run_length (is_word db) (c :: s)) prev (c :: s)
                 = map (fun r => (r, [])) (tail (word_runs (is_word db) (c :: s)))).
      { intros prev. simpl word_run_length. rewrite Hc. cbn [finditer_go].
        rewrite IHB. simpl word_runs. rewrite Hc.
        destruct (word_after (is_word db) s); [|reflexivity].
        destruct (word_runs (is_word db) s); reflexivity. }
      split; intros prev.
      * intros Hprev.
        assert (Hwb : word_before (is_word db) prev = false).
        { destruct (word_before (is_word db) prev); [|reflexivity].
          specialize (Hprev eq_refl). simpl in Hprev. congruence. }
        cbn [finditer_go]. rewrite rmatch_word, Hwb.
        specialize (HB prev). simpl word_run_length in *. rewrite Hc in *.
        cbn [finditer_go] in HB. cbn [Init.Nat.pred]. rewrite HB.
        rewrite (word_runs_head (is_word db) (c :: s)) at 2
          by (simpl; exact Hc).
        simpl word_run_length. rewrite Hc. reflexivity.
      * rewrite HB. simpl word_after. rewrite Hc. reflexivity.
    + assert (HA : forall prev,
                 finditer_go (re_word db) O prev (c :: s)
                 = map (fun r => (r, [])) (word_runs (is_word db) (c :: s))).
      { intros prev. cbn [finditer_go]. rewrite rmatch_word.
        simpl word_run_length. rewrite Hc.
        assert (Hn : (if word_before (is_word db) prev then None
                      else (None : option mres)) = None)
          by (destruct (word_before (is_word db) prev); reflexivity).
        rewrite Hn. simpl word_runs. rewrite Hc. apply IHA.
        simpl. rewrite Hc. discriminate. }
      split; intros prev; [intros _; apply HA|].
      simpl word_run_length. simpl word_after. rewrite Hc. apply HA.
Qed.

Lemma word_runs_wellformed isw s :
  Forall (fun w => w <> [] /\ forallb isw w = true) (word_runs isw s).
Proof.
  induction s as [|c s IH]; simpl; [constructor|].
  destruct (isw c) eqn:Hc; [|exact IH].
  destruct (word_after isw s).
  - destruct (word_runs isw s) as [|r rs].
    + constructor; [|constructor]. split; [discriminate|]. simpl. rewrite Hc. reflexivity.
    + apply Forall_cons in IH as [[_ Hr] Hrs]. constructor; [|exact Hrs].
      split; [discriminate|]. simpl. rewrite Hc, Hr. reflexivity.
  - constructor; [|exact IH]. split; [discriminate|]. simpl. rewrite Hc. reflexivity.
Qed.

(** X10: the tokens of the content analysis are exactly the maximal runs of
    word characters of the lower-cased content, in order; so every token
    is non-empty and made of word characters, and the word count is the
    number of these runs. *)
Theorem tokens_are_word_runs db (self : BlogSEOAnalyzer) :
  words_of db (content self)
  = word_runs (is_word db) (lower db (content self))
  /\ Forall (fun w => w <> [] /\ forallb (is_word db) w = true)
            (words_of db (content self))
  /\ (exists self' ca,
        analyze_content db self = Ok (self', ca)
        /\ word_count self'
           = Z.of_nat (length (word_runs (is_word db)
                                 (lower db (content self))))).
Proof.
  assert (H : words_of db (content self)
              = word_runs (is_word db) (lower db (content self))).
  { unfold words_of, findall, finditer.
    rewrite (proj1 (finditer_word_runs db _)) by discriminate.
    rewrite map_map. simpl. apply map_id. }
  split; [exact H|]. split.
  - rewrite H. apply word_runs_wellformed.
  - destruct (analyze_content_dict db self) as (c & ci & Hca & _).
    eexists _, _. split; [exact Hca|]. simpl. rewrite H. reflexivity.
Qed.

(** ** What a heading match spans *)

(** A greedy repetition takes the whole run of its class when what
    follows can be matched from the end of the run. *)
Lemma rep_takes_run (cap : bool) (cls : N -> bool) (k : cont)
    lo hi prev w x n g :
  forallb cls w = true ->
  match x with c :: _ => cls c = false | [] => True end ->
  (lo <= length w)%nat ->
  match hi with Some h => (length w <= h)%nat | None => True end ->
  (forall q, k q x = Some (n, g)) ->
  rep cap true cls k lo hi prev (w ++ x)
  = Some ((length w + n)%nat, if cap then w ++ g else g).
Proof.
  intros Hw Hx. revert lo hi prev Hw.
  induction w as [|c w IH]; intros lo hi prev Hw Hlo Hhi Hk.
  - simpl in Hlo. assert (lo = O) as -> by lia.
    cbn [app length Nat.add]. rewrite rep_eq. cbn zeta.
    destruct x as [|c x].
    + destruct cap; apply Hk.
    + rewrite Hx. simpl. destruct cap; apply Hk.
  - simpl in Hw. apply andb_prop in Hw as [Hc Hw].
    simpl app. rewrite rep_eq. cbn zeta. rewrite Hc.
    assert (Hrep : may_repeat hi = true).
    { destruct hi as [[|h]|]; simpl in *; [lia|reflexivity|reflexivity]. }
    rewrite Hrep. simpl andb. cbv iota.
    rewrite (IH (pred lo) (option_map pred hi) (Some c) Hw).
    + destruct cap; reflexivity.
    + simpl in Hlo. lia.
    + destruct hi as [h|]; simpl in *; [lia|exact I].
    + exact Hk.
Qed.

Lemma forallb_repeat_hash k : forallb (N.eqb HASH) (repeat HASH k) = true.
Proof. induction k as [|k IH]; [reflexivity|]. simpl. exact IH. Qed.

Lemma header_not_at_newline prev s : rmatch re_header prev (NL :: s) = None.
Proof.
  rewrite rmatch_header. destruct (at_bol prev); [|reflexivity].
  rewrite rep_eq. reflexivity.
Qed.

Lemma header_not_at_end prev : rmatch re_header prev [] = None.
Proof. apply header_needs_hash. reflexivity. Qed.

Lemma sub_header_at_eol r q s :
  at_eol s = true ->
  sub_go re_header r O q s = sub_go re_header r O None s.
Proof.
  destruct s as [|c s]; simpl at_eol; intros H.
  - cbn [sub_go]. rewrite !header_not_at_end. reflexivity.
  - apply N.eqb_eq in H. subst c. cbn [sub_go].
    rewrite !header_not_at_newline. reflexivity.
Qed.

(** X6: a heading match spans the number signs, the whole run of whitespace
    after them, line breaks included, and the rest of the line on which
    that run ends; the substitution removes all of it.  So a heading
    without text takes the following line with it. *)
Theorem header_match_extent (prev : option N) (k : nat)
    (w line rest : pystr) :
  at_bol prev = true ->
  (1 <= k <= 6)%nat ->
  w <> [] -> blank w = true ->
  forallb dot line = true ->
  match line ++ rest with c :: _ => is_space c = false | [] => True end ->
  at_eol rest = true ->
  rmatch re_header prev (repeat HASH k ++ w ++ line ++ rest)
  = Some ((k + length w + length line)%nat, [])
  /\ strip_headers (repeat HASH k ++ w ++ line ++ rest) = strip_headers rest.
Proof.
  intros Hbol Hk Hw Hblank Hline Hnext Heol.
  replace (k + length w + length line)%nat
    with (k + (length w + (length line + 0)))%nat by lia.
  assert (Hm : forall q,
             rmatch re_header q (repeat HASH k ++ w ++ line ++ rest)
             = if at_bol q
               then Some ((k + (length w + (length line + 0)))%nat, [])
               else None).
  { intros q. rewrite rmatch_header. destruct (at_bol q); [|reflexivity].
    rewrite <- (repeat_length HASH k) at 2.
    apply (rep_takes_run false).
    - apply forallb_repeat_hash.
    - destruct w as [|c w']; [contradiction|]. cbn [app].
      change (blank (c :: w')) with (is_space c && blank w') in Hblank.
      apply andb_prop in Hblank as [Hc _].
      destruct (HASH =? c)%N eqn:E; [|reflexivity].
      apply N.eqb_eq in E. subst c. discriminate Hc.
    - rewrite repeat_length. lia.
    - rewrite repeat_length. lia.
    - intros q'. change (rmatch [plus is_space; star dot; Eol] q' (w ++ line ++ rest))
        with (rep false true is_space (rmatch [star dot; Eol]) 1 None q'
                (w ++ line ++ rest)).
      apply (rep_takes_run false).
      + exact Hblank.
      + exact Hnext.
      + destruct w; [contradiction|simpl; lia].
      + exact I.
      + intros q''. change (rmatch [star dot; Eol] q'' (line ++ rest))
          with (rep false true dot (rmatch [Eol]) 0 None q'' (line ++ rest)).
        apply (rep_takes_run false).
        * exact Hline.
        * destruct rest as [|c rest']; [exact I|]. simpl in Heol.
          unfold dot. rewrite Heol. reflexivity.
        * lia.
        * exact I.
        * intros q3. simpl. rewrite Heol. reflexivity. }
  split; [rewrite Hm, Hbol; reflexivity|].
  unfold strip_headers, sub.
  specialize (Hm None). cbn [at_bol] in Hm.
  remember (k + (length w + (length line + 0)))%nat as n eqn:En.
  remember (repeat HASH k ++ w ++ line ++ rest) as text eqn:Et.
  assert (Hlen : length text = (n + length rest)%nat).
  { subst text n. rewrite !length_app, repeat_length. lia. }
  assert (Hdrop : drop n text = rest).
  { subst text. rewrite !app_assoc. apply drop_app_length'.
    rewrite !length_app, repeat_length. lia. }
  clear Et.
  destruct text as [|c text']; [simpl in Hlen; lia|].
  cbn [sub_go]. rewrite Hm.
  destruct n as [|m]; [lia|].
  simpl expand. simpl app.
  destruct (sub_go_skip re_header (Const []) m (Some c) text') as [q Hq].
  { simpl in Hlen. lia. }
  rewrite Hq. simpl drop in Hdrop. rewrite Hdrop.
  apply sub_header_at_eol, Heol.
Qed.

Lemma header_match_extent_witness :
  strip_headers (u "##" ++ [NL] ++ u "Text that follows") = [].
Proof.
  apply (proj2 (header_match_extent None 2 [NL] (u "Text that follows") []
                  eq_refl ltac:(lia) ltac:(discriminate) eq_refl eq_refl
                  eq_refl eq_refl)).
Defined.

(** ** Heading stripping is complete *)

Lemma no_header_after_sub_header n :
  forall s prev prev',
    (length s <= n)%nat ->
    prev = prev' \/ at_eol s = true ->
    search_from re_header prev' (sub_go re_header (Const []) O prev s) = None.
Proof.
  induction n as [|n IH]; intros s prev prev' Hn Hinv.
  - destruct s; [|simpl in Hn; lia].
    cbn [sub_go]. rewrite header_not_at_end.
    apply search_from_None_intro; [apply header_not_at_end|exact I].
  - destruct s as [|c s].
    + cbn [sub_go]. rewrite header_not_at_end.
      apply search_from_None_intro; [apply header_not_at_end|exact I].
    + simpl in Hn. cbn [sub_go].
      destruct (rmatch re_header prev (c :: s)) as [[m g]|] eqn:E.
      * apply header_match_span in E as [[Hm1 Hm2] He].
        destruct m as [|m]; [lia|]. simpl expand. simpl app.
        simpl in Hm2. simpl drop in He.
        destruct (sub_go_skip re_header (Const []) m (Some c) s) as [q Hq]; [lia|].
        rewrite Hq. apply IH; [rewrite length_drop; lia|right; exact He].
      * apply search_from_None_intro; [|apply IH; [lia|left; reflexivity]].
        destruct Hinv as [<-|He].
        -- destruct (rmatch re_header prev
                       (c :: sub_go re_header (Const []) O (Some c) s))
             as [r|] eqn:E'; [|reflexivity].
           exfalso. rewrite rmatch_header in E', E.
           destruct (at_bol prev); [|discriminate].
           apply rep_hashes_run in E' as (j & Hj & Hr);
             [|intros q x y Hy; apply (rep_needs_one _ _ _ _ _ _ _ _ _ Hy)].
           rewrite hash_run_cons in Hj.
           destruct (HASH =? c)%N eqn:Hc.
           ++ rewrite hash_run_sub_header in Hj
                by (apply N.eqb_eq in Hc; subst c; reflexivity).
              destruct (rep_hashes_header 1 6 prev (c :: s) j) as [x Hx];
                [rewrite hash_run_cons, Hc; exact Hj|lia|congruence].
           ++ destruct (is_space c); [|discriminate]. injection Hj as <-. lia.
        -- simpl in He. apply N.eqb_eq in He. subst c.
           apply header_not_at_newline.
Qed.

(** X5: after the heading-stripping step no heading line of any level is
    left, so the step changes nothing when applied again. *)
Theorem heading_stripping_complete (text : pystr) :
  search re_header (strip_headers text) = None
  /\ findall re_header (strip_headers text) = []
  /\ strip_headers (strip_headers text) = strip_headers text.
Proof.
  assert (H : search re_header (strip_headers text) = None).
  { unfold search, strip_headers, sub.
    apply (no_header_after_sub_header (length text)); [lia|left; reflexivity]. }
  split; [exact H|]. split.
  - unfold findall, finditer. rewrite finditer_go_no_match; [reflexivity|exact H].
  - unfold strip_headers at 1. apply sub_no_match, H.
Qed.

(** ** The title of a document that starts with a heading *)

(** X8: when the document starts with a number sign and whitespace, the title
    is the text of the line on which that whitespace ends, stripped: the
    text after the sign, or, when the sign stands alone on its line, the
    next line that is not blank. *)
Theorem title_from_first_heading (w line rest : pystr) :
  w <> [] -> blank w = true ->
  line <> [] -> forallb dot line = true ->
  (forall c, head line = Some c -> is_space c = false) ->
  at_eol rest = true ->
  search re_title (HASH :: w ++ line ++ rest)
  = Some (O, (S (length w + length line), line))
  /\ extract_title (HASH :: w ++ line ++ rest) = strip line.
Proof.
  intros Hw Hblank Hline Hdot Hhead Heol.
  assert (Hm : rmatch re_title None (HASH :: w ++ line ++ rest)
               = Some (S (length w + length line), line)).
  { rewrite rmatch_title. cbn [at_bol]. rewrite N.eqb_refl.
    rewrite (rep_takes_run false is_space _ 1 None (Some HASH) w
               (line ++ rest) (length line + 0) line).
    - simpl. rewrite Nat.add_0_r. reflexivity.
    - exact Hblank.
    - destruct line as [|c line']; [contradiction|]. simpl.
      apply Hhead. reflexivity.
    - destruct w; [contradiction|simpl; lia].
    - exact I.
    - intros q.
      rewrite (rep_takes_run true dot _ 1 None q line rest 0 []).
      + rewrite app_nil_r. reflexivity.
      + exact Hdot.
      + destruct rest as [|c rest']; [exact I|]. simpl in Heol.
        unfold dot. rewrite Heol. reflexivity.
      + destruct line; [contradiction|simpl; lia].
      + exact I.
      + intros q'. simpl. rewrite Heol. reflexivity. }
  assert (Hs : search re_title (HASH :: w ++ line ++ rest)
               = Some (O, (S (length w + length line), line))).
  { unfold search. cbn [search_from]. rewrite Hm. reflexivity. }
  split; [exact Hs|]. unfold extract_title. rewrite Hs. reflexivity.
Qed.

Lemma title_from_first_heading_witness :
  extract_title (u "#" ++ [NL; NL] ++ u "Hello world " ++ [NL] ++ u "Text.")
  = u "Hello world".
Proof.
  transitivity (strip (u "Hello world ")); [|vm_compute; reflexivity].
  exact (proj2 (title_from_first_heading [NL; NL] (u "Hello world ")
                  ([NL] ++ u "Text.")
                  ltac:(discriminate) eq_refl ltac:(discriminate) eq_refl
                  ltac:(intros c [= <-]; reflexivity) eq_refl)).
Defined.
